(** * QKart backend: cart service and user schema

    A shallow embedding of [src/services/cart.service.js] and of the field
    validators of [src/models/user.model.js], with the properties the
    specification states about them.

    Modelling conventions.
    - JavaScript numbers that the service computes with (quantity, cost,
      walletMoney) are doubles.  The model covers the doubles that hold an
      integer, as a [Z]; the result of every addition, subtraction and
      multiplication is rounded to the nearest double, ties to even
      ([js_round]), as IEEE-754 does.  Magnitudes stay below 2^1024 (no
      infinity), and amounts with a fractional part are not covered.
    - Strings are [string]; a character is one code unit.  The loose
      comparison [item.product._id == productId] is equality of identifiers.
    - The document database is explicit state: the product catalog, the
      cart collection keyed by its [email] field and the user collection
      keyed by [_id].  Each write through the driver may be rejected; the
      pending outcomes are part of the state ([faults]).
    - An [async] function is a computation in the monad [M]: it reads and
      writes the database and either returns a value or throws. *)

From Stdlib Require Import ZArith String Ascii List Bool Lia.
From stdpp Require Import base option list gmap strings.
Import ListNotations.

Local Open Scope string_scope.
Local Open Scope Z_scope.

(** ** Documents *)

(** Modelled from the spec: the Product model ([models/product.model.js]) is
    not among the sources.  A product is a read-only catalog record with an
    identifier and a cost; the service reads [_id] and [cost] only. *)
Module Product.
Record t : Type := mk { _id : string; cost : Z }.
End Product.

(** A line item as [addProductToCart] pushes it: [{product, quantity}]. *)
Record CartItem : Type := mkItem { product : Product.t; quantity : Z }.

(** Modelled from the spec: the Cart model ([models/cart.model.js]) is not
    among the sources.  A cart is the owning user's email, which is its key
    (at most one cart per email), and the ordered collection of its line
    items; these are the two fields [Cart.create] is given. *)
Module Cart.
Record t : Type := mk { email : string; cartItems : list CartItem }.
End Cart.

(** Modelled from the spec: [config/config.js] is not among the sources.
    The one value the core consumes is the default address. *)
Record Config : Type := { default_address : string }.

Module User.
Record t : Type := mk {
  _id : string;
  name : string;
  email : string;
  password : string;
  walletMoney : Z;
  address : string
}.

Definition set_walletMoney (v : Z) (user : t) : t :=
  mk (_id user) (name user) (email user) (password user) v (address user).

Definition set_password (v : string) (user : t) : t :=
  mk (_id user) (name user) (email user) v (walletMoney user) (address user).

(** [userSchema.methods.hasSetNonDefaultAddress] *)
Definition hasSetNonDefaultAddress (config : Config) (user : t) : bool :=
  negb (String.eqb (address user) (default_address config)).
End User.

Module httpStatus.
Definition BAD_REQUEST : Z := 400.
Definition NOT_FOUND : Z := 404.
End httpStatus.

(** ** Errors and the database *)

(** What a call can throw.  [ApiError] is the error of [utils/ApiError.js],
    built from a status code and a message; [ValidationError] is what
    mongoose reports for a validator that threw, on the path it validates;
    [TypeError] is a property access on [undefined]; [WriteError] is a write
    the driver rejected. *)
Inductive Error : Type :=
| ApiError (statusCode : Z) (message : string)
| ValidationError (path : string) (message : string)
| TypeError
| WriteError.

(** The state of the world between two steps of a call: the three
    collections and the outcomes of the coming writes.  The cart collection
    maps the email of a cart to its line items, the user collection maps
    the [_id] of a user to the record. *)
Record World : Type := mkWorld {
  products : list Product.t;
  carts : gmap string (list CartItem);
  users : gmap string User.t;
  faults : list bool
}.

Definition set_carts (f : gmap string (list CartItem) -> gmap string (list CartItem))
    (w : World) : World :=
  mkWorld (products w) (f (carts w)) (users w) (faults w).

Definition set_users (f : gmap string User.t -> gmap string User.t)
    (w : World) : World :=
  mkWorld (products w) (carts w) (f (users w)) (faults w).

Definition set_faults (fs : list bool) (w : World) : World :=
  mkWorld (products w) (carts w) (users w) fs.

(** ** The monad of service calls *)

Definition M (A : Type) : Type := World -> (Error + A) * World.

Definition ret {A} (a : A) : M A := fun w => (inr a, w).

Definition throw {A} (e : Error) : M A := fun w => (inl e, w).

Definition bind {A B} (m : M A) (k : A -> M B) : M B :=
  fun w =>
    match m w with
    | (inr a, w') => k a w'
    | (inl e, w') => (inl e, w')
    end.

Notation "'let!' x ':=' m 'in' k" := (bind m (fun x => k))
  (at level 10, x name, m at level 100, k at level 200).
Notation "'do!' m 'in' k" := (bind m (fun _ => k))
  (at level 10, m at level 100, k at level 200).

(** A write reaches the store unless the driver rejects it.  [faults] lists
    the outcomes of the coming writes, [true] for a rejected one; when the
    list is exhausted every write goes through. *)
Definition write (upd : World -> World) : M unit :=
  fun w =>
    match faults w with
    | [] => (inr tt, upd w)
    | false :: fs => (inr tt, set_faults fs (upd w))
    | true :: fs => (inl WriteError, set_faults fs w)
    end.

(** [Product.findOne({_id: productId}).exec()] *)
Definition Product_findOne (productId : string) : M (option Product.t) :=
  fun w => (inr (find (fun p => String.eqb (Product._id p) productId) (products w)), w).

(** [Cart.findOne({email: email}).exec()] *)
Definition Cart_findOne (email : string) : M (option Cart.t) :=
  fun w => (inr (Cart.mk email <$> carts w !! email), w).

(** [Cart.create({email, cartItems})]: the created document, never a falsy
    value. *)
Definition Cart_create (email : string) (cartItems : list CartItem) : M (option Cart.t) :=
  do! write (set_carts (insert email cartItems)) in
  ret (Some (Cart.mk email cartItems)).

(** [userCart.save()] *)
Definition Cart_save (userCart : Cart.t) : M unit :=
  write (set_carts (insert (Cart.email userCart) (Cart.cartItems userCart))).

(** [user.save()] *)
Definition User_save (user : User.t) : M unit :=
  write (set_users (insert (User._id user) user)).

(** ** JavaScript idioms used by the service *)

(** The arrow function [item => item.product._id == productId]. *)
Definition same_product (productId : string) (item : CartItem) : bool :=
  String.eqb (Product._id (product item)) productId.

(** [Array.prototype.filter] returns a new array holding the very objects of
    the array it filters.  Where the service writes through such an element
    the result is kept as references: positions in the filtered array. *)
Fixpoint filter_refs {A} (p : A -> bool) (l : list A) (i : nat) : list nat :=
  match l with
  | [] => []
  | x :: l' => if p x then i :: filter_refs p l' (S i) else filter_refs p l' (S i)
  end.

(** An array is an object, and every object is truthy. *)
Definition truthy_array {A} (a : list A) : bool := true.

(** [item.quantity = quantity] *)
Definition set_quantity (q : Z) (item : CartItem) : CartItem :=
  mkItem (product item) q.

(** The double nearest to an integer: an integer of at most 53 significant
    bits is a double; a longer one loses its low bits, rounded to the nearest
    value, and to the one with an even 53-bit significand when it is half way
    between two. *)
Definition js_round (z : Z) : Z :=
  let a := Z.abs z in
  let shift := Z.log2 a - 52 in
  if shift <=? 0 then z
  else
    let q := Z.shiftr a shift in
    let r := Z.land a (Z.ones shift) in
    let half := Z.shiftl 1 (shift - 1) in
    let q' := if (half <? r) || ((r =? half) && Z.odd q) then q + 1 else q in
    Z.sgn z * Z.shiftl q' shift.

(** [a + b], [a - b] and [a * b] on numbers. *)
Definition js_add (a b : Z) : Z := js_round (a + b).
Definition js_sub (a b : Z) : Z := js_round (a - b).
Definition js_mul (a b : Z) : Z := js_round (a * b).


(** The callback of the [reduce] in [checkout]:
    [sum += item.quantity * item.product.cost]. *)
Definition add_cost (sum : Z) (item : CartItem) : Z :=
  js_add sum (js_mul (quantity item) (Product.cost (product item))).

(** ** src/services/cart.service.js *)

Section CartService.

Variable config : Config.

Definition getCartByUser (user : User.t) : M Cart.t :=
  let email := User.email user in
  let! userCart := Cart_findOne email in
  match userCart with
  | Some userCart => ret userCart
  | None => throw (ApiError httpStatus.NOT_FOUND "User does not have a cart")
  end.

Definition addProductToCart (user : User.t) (productId : string) (quantity : Z)
    : M Cart.t :=
  let! prod := Product_findOne productId in
  match prod with
  | None => throw (ApiError 400 "Product doesn't exist in database")
  | Some prod =>
    let email := User.email user in
    let! userCart := Cart_findOne email in
    let! userCart :=
      match userCart with
      | Some userCart => ret userCart
      | None =>
        let! userCart := Cart_create email [] in
        match userCart with
        | None => throw (ApiError 500 "Internal Server Error")
        | Some userCart => ret userCart
        end
      end in
    if negb (Nat.eqb
               (length (List.filter (same_product productId) (Cart.cartItems userCart)))
               0)
    then throw (ApiError 400
      "Product already in cart. Use the cart sidebar to update or remove product from cart")
    else
      let userCart :=
        Cart.mk (Cart.email userCart)
                (Cart.cartItems userCart ++ [mkItem prod quantity]) in
      do! Cart_save userCart in
      ret userCart
  end.

Definition deleteProductFromCart (user : User.t) (productId : string) : M Cart.t :=
  let email := User.email user in
  let! userCart := Cart_findOne email in
  match userCart with
  | None => throw (ApiError 400 "User does not have a cart")
  | Some userCart =>
    let updateProduct := List.filter (same_product productId) (Cart.cartItems userCart) in
    if negb (truthy_array updateProduct)
    then throw (ApiError 400 "Product not in cart")
    else
      let userCart :=
        Cart.mk (Cart.email userCart)
                (List.filter (fun item => negb (same_product productId item))
                             (Cart.cartItems userCart)) in
      do! Cart_save userCart in
      ret userCart
  end.

Definition updateProductInCart (user : User.t) (productId : string) (quantity : Z)
    : M Cart.t :=
  let! prod := Product_findOne productId in
  match prod with
  | None => throw (ApiError 400 "Product doesn't exist in database")
  | Some prod =>
    let email := User.email user in
    let! userCart := Cart_findOne email in
    match userCart with
    | None => throw (ApiError 400
        "User does not have a cart. Use POST to create cart and add a product")
    | Some userCart =>
      let updateProduct := filter_refs (same_product productId) (Cart.cartItems userCart) 0 in
      if Nat.eqb (length updateProduct) 0
      then throw (ApiError 400 "Product not in cart")
      else if quantity <=? 0
      then deleteProductFromCart user productId
      else
        match updateProduct !! 0%nat with
        | None => throw TypeError
        | Some first =>
          let userCart :=
            Cart.mk (Cart.email userCart)
                    (alter (set_quantity quantity) first (Cart.cartItems userCart)) in
          do! Cart_save userCart in
          ret userCart
        end
    end
  end.

(** [checkout] returns the cart; the model returns with it the caller's
    [user] object, which the function debits in place. *)
Definition checkout (user : User.t) : M (Cart.t * User.t) :=
  let! userCart := getCartByUser user in
  if Nat.eqb (length (Cart.cartItems userCart)) 0
  then throw (ApiError httpStatus.BAD_REQUEST "Cart is Empty")
  else
    let address := User.hasSetNonDefaultAddress config user in
    if negb address
    then throw (ApiError httpStatus.BAD_REQUEST "Address not set")
    else
      let totalBill := fold_left add_cost (Cart.cartItems userCart) 0 in
      if totalBill >? User.walletMoney user
      then throw (ApiError httpStatus.BAD_REQUEST "Insuficient Balance")
      else
        let user := User.set_walletMoney (js_sub (User.walletMoney user) totalBill) user in
        let userCart := Cart.mk (Cart.email userCart) [] in
        do! Cart_save userCart in
        do! User_save user in
        ret (userCart, user).

End CartService.

(** ** Regular expressions

    The patterns of [user.model.js] use no back-reference and no look-around,
    so whether one matches is membership in a regular language.  The matcher
    takes derivatives character by character. *)

Inductive regex : Type :=
| Void
| Eps
| Class (p : ascii -> bool)
| Cat (r1 r2 : regex)
| Alt (r1 r2 : regex)
| Star (r : regex).

Fixpoint nullable (r : regex) : bool :=
  match r with
  | Void => false
  | Eps => true
  | Class _ => false
  | Cat r1 r2 => nullable r1 && nullable r2
  | Alt r1 r2 => nullable r1 || nullable r2
  | Star _ => true
  end.

Fixpoint deriv (c : ascii) (r : regex) : regex :=
  match r with
  | Void => Void
  | Eps => Void
  | Class p => if p c then Eps else Void
  | Cat r1 r2 =>
    if nullable r1
    then Alt (Cat (deriv c r1) r2) (deriv c r2)
    else Cat (deriv c r1) r2
  | Alt r1 r2 => Alt (deriv c r1) (deriv c r2)
  | Star r1 => Cat (deriv c r1) (Star r1)
  end.

(** The whole string is in the language: a pattern written [^...$]. *)
Fixpoint matches (r : regex) (s : string) : bool :=
  match s with
  | EmptyString => nullable r
  | String c s' => matches (deriv c r) s'
  end.

Definition any_char : regex := Class (fun _ => true).

(** Some substring is in the language: a pattern without anchors. *)
Definition found (r : regex) (s : string) : bool :=
  matches (Cat (Star any_char) (Cat r (Star any_char))) s.

Definition plus (r : regex) : regex := Cat r (Star r).
Definition opt (r : regex) : regex := Alt r Eps.
Definition chr (c : ascii) : regex := Class (Ascii.eqb c).

Definition in_range (lo hi c : ascii) : bool :=
  (nat_of_ascii lo <=? nat_of_ascii c)%nat && (nat_of_ascii c <=? nat_of_ascii hi)%nat.

(** [\d] *)
Definition is_digit (c : ascii) : bool := in_range "0" "9" c.

(** [[a-zA-Z]] *)
Definition is_letter (c : ascii) : bool := in_range "a" "z" c || in_range "A" "Z" c.

(** [\s] on code units below 256: tab, the line breaks, space, no-break
    space. *)
Definition is_space (c : ascii) : bool :=
  existsb (Nat.eqb (nat_of_ascii c)) [9; 10; 11; 12; 13; 32; 160]%nat.

Definition quote : ascii := ascii_of_nat 34.
Definition backslash : ascii := ascii_of_nat 92.

(** The negated class of the local part: any character but the brackets
    [<>()[]], the backslash, [.,;:], white space, the at sign and the double
    quote. *)
Definition is_atom_char (c : ascii) : bool :=
  negb (existsb (Ascii.eqb c)
          ["<"; ">"; "("; ")"; "["; "]"; backslash; "."; ","; ";"; ":"; "@"; quote]%char
        || is_space c).

(** [.] : anything but a line terminator *)
Definition is_dot (c : ascii) : bool :=
  negb (existsb (Nat.eqb (nat_of_ascii c)) [10; 13]%nat).

(** [[a-zA-Z\-0-9]] *)
Definition is_label_char (c : ascii) : bool :=
  is_letter c || Ascii.eqb c "-" || is_digit c.

(** The pattern [re] of the email validator, between [^] and [$]. *)
Definition email_re : regex :=
  let atom := plus (Class is_atom_char) in
  let dot := chr "." in
  let octet := Cat (Class is_digit) (Cat (opt (Class is_digit)) (opt (Class is_digit))) in
  let local :=
    Alt (Cat atom (Star (Cat dot atom)))
        (Cat (chr quote) (Cat (plus (Class is_dot)) (chr quote))) in
  let ip :=
    Cat (chr "[")
      (Cat octet (Cat dot (Cat octet (Cat dot (Cat octet (Cat dot (Cat octet (chr "]")))))))) in
  let host :=
    Cat (plus (Cat (plus (Class is_label_char)) dot))
        (Cat (Class is_letter) (Cat (Class is_letter) (Star (Class is_letter)))) in
  Cat local (Cat (chr "@") (Alt ip host)).

(** ** JavaScript values in the email validator *)

Inductive JsVal : Type :=
| JUndefined
| JNull
| JBoolean (b : bool)
| JString (s : string).

(** [String(v)], also the conversion [RegExp.prototype.test] applies to its
    argument. *)
Definition ToString (v : JsVal) : string :=
  match v with
  | JUndefined => "undefined"
  | JNull => "null"
  | JBoolean true => "true"
  | JBoolean false => "false"
  | JString s => s
  end.

(** [a === b]: values of different types are never strictly equal. *)
Definition strict_equals (a b : JsVal) : bool :=
  match a, b with
  | JUndefined, JUndefined => true
  | JNull, JNull => true
  | JBoolean x, JBoolean y => Bool.eqb x y
  | JString x, JString y => String.eqb x y
  | _, _ => false
  end.

Definition lower (c : ascii) : ascii :=
  if in_range "A" "Z" c then ascii_of_nat (nat_of_ascii c + 32) else c.

(** [s.toLowerCase()], on the letters [A]..[Z]. *)
Fixpoint toLowerCase (s : string) : string :=
  match s with
  | EmptyString => EmptyString
  | String c s' => String (lower c) (toLowerCase s')
  end.

(** [re.test(v)] for an anchored pattern. *)
Definition RegExp_test (re : regex) (v : JsVal) : bool := matches re (ToString v).

(** [value.match(re)] is an array when the pattern is found, [null]
    otherwise; the validators only use its truthiness. *)
Definition String_match (re : regex) (value : string) : bool := found re value.

(** ** src/models/user.model.js

    A validator that throws [new Error(msg)] returns [inl msg]. *)

Definition email_validate (value : JsVal) : string + unit :=
  let re := email_re in
  if RegExp_test re
       (JBoolean (strict_equals (JString (toLowerCase (ToString value))) (JBoolean false)))
  then inl "Invalid Email"
  else inr tt.

Definition password_validate (value : string) : string + unit :=
  if (String.length value <? 8)%nat
  then inl "Password must contain at least 8 characters"
  else if negb (String_match (Class is_digit) value)
          || negb (String_match (Class is_letter) value)
  then inl "Password must contain at least one letter and one number"
  else inr tt.

Definition SALT_WORK_FACTOR : Z := 10.

Section Credentials.

(** The hashing collaborator: [bcrypt.genSalt] and [bcrypt.hash], each
    handing its callback an error or a result. *)
Variable bcrypt_genSalt : Z -> Error + string.
Variable bcrypt_hash : string -> string -> Error + string.

(** [userSchema.pre('save', ...)]; [isModified_password] is
    [user.isModified('password')]. *)
Definition pre_save (isModified_password : bool) (user : User.t) : Error + User.t :=
  if negb isModified_password then inr user
  else
    match bcrypt_genSalt SALT_WORK_FACTOR with
    | inl err => inl err
    | inr salt =>
      match bcrypt_hash (User.password user) salt with
      | inl err => inl err
      | inr hash => inr (User.set_password hash user)
      end
    end.

(** What [save()] does to the password before the document is written:
    mongoose validates the paths of the document first, the loaded ones as
    well as the modified ones, reports a throwing validator as a
    [ValidationError] on its path, and runs the [pre('save')] hook only when
    validation passed. *)
Definition before_save (isModified_password : bool) (user : User.t) : Error + User.t :=
  match password_validate (User.password user) with
  | inl msg => inl (ValidationError "password" msg)
  | inr _ => pre_save isModified_password user
  end.

End Credentials.

(** ** Vocabulary of the specification *)

(** The language of a regular expression. *)
Inductive lang : regex -> string -> Prop :=
| lang_eps : lang Eps ""
| lang_class p c : p c = true -> lang (Class p) (String c "")
| lang_cat r1 r2 s1 s2 : lang r1 s1 -> lang r2 s2 -> lang (Cat r1 r2) (s1 +:+ s2)
| lang_alt_l r1 r2 s : lang r1 s -> lang (Alt r1 r2) s
| lang_alt_r r1 r2 s : lang r2 s -> lang (Alt r1 r2) s
| lang_star_nil r : lang (Star r) ""
| lang_star_app r s1 s2 : lang r s1 -> lang (Star r) s2 -> lang (Star r) (s1 +:+ s2).

(** The string has a character of the given kind. *)
Definition contains (kind : ascii -> bool) (s : string) : Prop :=
  exists c, In c (list_ascii_of_string s) /\ kind c = true.

(** The password rule in the words of the specification: at least 8
    characters, at least one alphabetic and at least one numeric character. *)
Definition password_acceptable (plaintext : string) : Prop :=
  (8 <= String.length plaintext)%nat
  /\ contains is_letter plaintext /\ contains is_digit plaintext.

Definition password_rejected (plaintext : string) : Prop :=
  (String.length plaintext < 8)%nat
  \/ ~ contains is_letter plaintext \/ ~ contains is_digit plaintext.


(** The total as [checkout] computes it, line item after line item in the
    arithmetic of numbers. *)
Definition billed (items : list CartItem) : Z :=
  fold_left add_cost items 0.

(** [user.walletMoney -= total] *)
Definition debited (total : Z) (user : User.t) : User.t :=
  User.set_walletMoney (js_sub (User.walletMoney user) total) user.


(** The outcome the driver has in store for the [n]-th coming write. *)
Definition rejected (n : nat) (w : World) : Prop := nth n (faults w) false = true.
Definition accepted (n : nat) (w : World) : Prop := nth n (faults w) false = false.

(** The four preconditions of checkout. *)
Definition checkout_ready (config : Config) (user : User.t) (w : World)
    (items : list CartItem) : Prop :=
  carts w !! User.email user = Some items
  /\ items <> []
  /\ User.address user <> default_address config
  /\ billed items <= User.walletMoney user.

(** Both records of a successful checkout are in the store. *)
Definition checkout_committed (user : User.t) (w w' : World) : Prop :=
  exists items,
    carts w !! User.email user = Some items
    /\ carts w' = <[User.email user := []]> (carts w)
    /\ users w' = <[User._id user := debited (billed items) user]> (users w).

(** Nothing of a checkout is in the store. *)
Definition checkout_untouched (w w' : World) : Prop :=
  carts w' = carts w /\ users w' = users w.

(** Only the emptied cart of a checkout is in the store. *)
Definition checkout_torn (user : User.t) (w w' : World) : Prop :=
  carts w' = <[User.email user := []]> (carts w) /\ users w' = users w.

Definition all_or_nothing (config : Config) (user : User.t) (w : World) : Prop :=
  match checkout config user w with
  | (inr _, w') => checkout_committed user w w'
  | (inl _, w') => checkout_untouched w w'
  end.

(** Every stored line item has a positive quantity. *)
Definition positive_quantities (items : list CartItem) : Prop :=
  Forall (fun item => 0 < quantity item) items.

Definition cart_invariant (w : World) : Prop :=
  forall email items, carts w !! email = Some items -> positive_quantities items.

(** The calls a client can make on the service. *)
Inductive Call : Type :=
| Add (user : User.t) (productId : string) (quantity : Z)
| Update (user : User.t) (productId : string) (quantity : Z)
| Delete (user : User.t) (productId : string)
| Checkout (user : User.t).

Definition perform (config : Config) (c : Call) (w : World) : World :=
  match c with
  | Add user productId quantity => snd (addProductToCart user productId quantity w)
  | Update user productId quantity => snd (updateProductInCart user productId quantity w)
  | Delete user productId => snd (deleteProductFromCart user productId w)
  | Checkout user => snd (checkout config user w)
  end.

(** The states the service reaches from a database without carts, by calls
    that satisfy [allowed]; before each call the driver may be in any mood. *)
Inductive reachable (config : Config) (allowed : Call -> Prop) : World -> Prop :=
| reachable_init ps us fs : reachable config allowed (mkWorld ps ∅ us fs)
| reachable_call w c fs :
    reachable config allowed w -> allowed c ->
    reachable config allowed (perform config c (set_faults fs w)).

Definition any_call (c : Call) : Prop := True.

Definition adds_positive (c : Call) : Prop :=
  match c with
  | Add _ _ quantity => 0 < quantity
  | _ => True
  end.

(** The first line item of the product is [item], between [pre] and
    [post]. *)
Definition first_match (productId : string) (items pre : list CartItem)
    (item : CartItem) (post : list CartItem) : Prop :=
  items = (pre ++ item :: post)%list
  /\ Forall (fun i => same_product productId i = false) pre
  /\ same_product productId item = true.

(** The catalog has a product with this identifier. *)
Definition in_catalog (productId : string) (w : World) : Prop :=
  exists prod, In prod (products w) /\ Product._id prod = productId.

(** The cart has a line item of the product. *)
Definition in_cart (productId : string) (items : list CartItem) : Prop :=
  Exists (fun item => same_product productId item = true) items.

(** The line items that are not of the product. *)
Definition without (productId : string) (items : list CartItem) : list CartItem :=
  List.filter (fun item => negb (same_product productId item)) items.

(** A computation that keeps [cart_invariant] whether it returns or throws,
    and returns only values that satisfy [Q]. *)
Definition keeps {A} (m : M A) (Q : A -> Prop) : Prop :=
  forall w, cart_invariant w ->
    cart_invariant (snd (m w)) /\ forall a, fst (m w) = inr a -> Q a.

Definition positive_cart (userCart : Cart.t) : Prop :=
  positive_quantities (Cart.cartItems userCart).

(** ** The user collection by email

    [userSchema.statics.isEmailTaken] is [this.findOne({email: email}).exec()]:
    it resolves to a stored user with that email, or to [null].  The users
    are enumerated in the order of the collection. *)



(** ** Vocabulary for the effects of a call *)

Definition set_products (ps : list Product.t) (w : World) : World :=
  mkWorld ps (carts w) (users w) (faults w).

(** A computation that does not depend on the catalog: with another catalog
    it returns the same and stores the same. *)
Definition catalog_blind {A} (m : M A) : Prop :=
  forall ps w, m (set_products ps w) = (fst (m w), set_products ps (snd (m w))).

(** The user a call is made for. *)
Definition caller (c : Call) : User.t :=
  match c with
  | Add user _ _ => user
  | Update user _ _ => user
  | Delete user _ => user
  | Checkout user => user
  end.

(** The line items a call may store in place of the stored ones [old], with
    the catalog [ps]. *)
Inductive rewritten (ps : list Product.t) (old : option (list CartItem))
    : Call -> list CartItem -> Prop :=
| rewritten_created user productId quantity prod :
    find (fun p => String.eqb (Product._id p) productId) ps = Some prod ->
    old = None ->
    rewritten ps old (Add user productId quantity) []
| rewritten_added user productId quantity prod :
    find (fun p => String.eqb (Product._id p) productId) ps = Some prod ->
    ~ in_cart productId (default [] old) ->
    rewritten ps old (Add user productId quantity)
      (default [] old ++ [mkItem prod quantity])
| rewritten_updated user productId quantity items pre item post :
    old = Some items ->
    0 < quantity ->
    first_match productId items pre item post ->
    rewritten ps old (Update user productId quantity)
      (pre ++ set_quantity quantity item :: post)
| rewritten_update_removed user productId quantity items :
    old = Some items ->
    quantity <= 0 ->
    in_cart productId items ->
    rewritten ps old (Update user productId quantity) (without productId items)
| rewritten_removed user productId items :
    old = Some items ->
    rewritten ps old (Delete user productId) (without productId items)
| rewritten_emptied user items :
    old = Some items ->
    items <> [] ->
    rewritten ps old (Checkout user) [].

(** What a call does to the catalog and to the carts: the catalog stays, and
    either the carts stay or the cart of the caller's email is stored anew. *)
Definition cart_effect (c : Call) (w w' : World) : Prop :=
  products w' = products w
  /\ (carts w' = carts w
      \/ exists items',
           rewritten (products w) (carts w !! User.email (caller c)) c items'
           /\ carts w' = <[User.email (caller c) := items']> (carts w)).

(** What a call does to the users: they stay, unless a checkout that was
    ready stores the debited caller. *)
Definition user_effect (config : Config) (c : Call) (w w' : World) : Prop :=
  users w' = users w
  \/ exists user items,
       c = Checkout user
       /\ checkout_ready config user w items
       /\ users w' = <[User._id user := debited (billed items) user]> (users w).

(** A property of line items that holds of every stored cart. *)
Definition every_cart (P : list CartItem -> Prop) (w : World) : Prop :=
  forall email items, carts w !! email = Some items -> P items.

Definition product_ids (items : list CartItem) : list string :=
  map (fun item => Product._id (product item)) items.

(** At most one line item per product. *)
Definition one_item_per_product (items : list CartItem) : Prop :=
  NoDup (product_ids items).

(** Every line item holds a product of the catalog [ps]. *)
Definition snapshots_of (ps : list Product.t) (items : list CartItem) : Prop :=
  Forall (fun item => In (product item) ps) items.

(** ** Sample data *)

Definition qkart_config : Config := {| default_address := "ADDRESS_NOT_SET" |}.

Definition tea : Product.t := Product.mk "p1" 100.
Definition mug : Product.t := Product.mk "p2" 250.

Definition ann : User.t :=
  User.mk "u1" "Ann" "ann@example.com" "$2a$10$N9qo8uLOickgx2ZMRZoMye" 500 "123 Main St".

(** Ann with exactly 100 in her wallet. *)
Definition ann_100 : User.t := User.set_walletMoney 100 ann.

(** A shop where Ann's cart holds two teas; [fs] are the outcomes of the
    coming writes. *)
Definition shop (fs : list bool) : World :=
  mkWorld [tea; mug] {[ "ann@example.com" := [mkItem tea 2] ]} {[ "u1" := ann ]} fs.

(** The same cart after tea was withdrawn from the catalog. *)
Definition shop_without_tea : World :=
  mkWorld [mug] {[ "ann@example.com" := [mkItem tea 2] ]} {[ "u1" := ann ]} [].

(** A shop without carts. *)
Definition new_shop : World := mkWorld [tea; mug] ∅ {[ "u1" := ann ]} [].

(** A cart with two line items of tea. *)
Definition shop_with_two_teas : World :=
  mkWorld [tea; mug]
    {[ "ann@example.com" := [mkItem tea 2; mkItem mug 1; mkItem tea 4] ]}
    {[ "u1" := ann ]} [].


(** Unfolding of the monad and of the driver. *)
Ltac run :=
  unfold getCartByUser, Cart_create, Cart_save, User_save, Cart_findOne,
    Product_findOne, write, bind, ret, throw; simpl.

(** * Properties *)

(** ** The matcher decides the language *)

Lemma append_nil_l (s : string) : "" +:+ s = s.
Proof. reflexivity. Qed.

Lemma append_cons (c : ascii) (s1 s2 : string) :
  String c s1 +:+ s2 = String c (s1 +:+ s2).
Proof. reflexivity. Qed.

Lemma append_eq_nil (s1 s2 : string) :
  s1 +:+ s2 = "" -> s1 = "" /\ s2 = "".
Proof. destruct s1; [auto | rewrite append_cons; discriminate]. Qed.

Lemma nullable_lang (r : regex) : nullable r = true <-> lang r "".
Proof.
  induction r as [| |p|r1 IH1 r2 IH2|r1 IH1 r2 IH2|r IH]; simpl; split; intros H.
  - discriminate.
  - inversion H.
  - constructor.
  - reflexivity.
  - discriminate.
  - inversion H.
  - apply andb_true_iff in H as [H1 H2].
    rewrite <- (append_nil_l "").
    constructor; [apply IH1 | apply IH2]; assumption.
  - inversion H; subst.
    match goal with Heq : _ +:+ _ = "" |- _ => apply append_eq_nil in Heq as [-> ->] end.
    apply andb_true_iff; split; [apply IH1 | apply IH2]; assumption.
  - apply orb_true_iff in H as [H|H];
      [apply lang_alt_l, IH1 | apply lang_alt_r, IH2]; assumption.
  - apply orb_true_iff.
    inversion H; subst; [left; apply IH1 | right; apply IH2]; assumption.
  - constructor.
  - reflexivity.
Qed.

(** A non-empty word of [Star r] starts with a non-empty word of [r]. *)
Lemma lang_star_cons (r : regex) (s : string) :
  lang (Star r) s ->
  forall c s', s = String c s' ->
  exists s1 s2, s' = (s1 +:+ s2) /\ lang r (String c s1) /\ lang (Star r) s2.
Proof.
  intros H. remember (Star r) as r' eqn:Hr.
  induction H as [| | | | | |r0 s1 s2 H1 _ H2 IH2]; try discriminate.
  injection Hr as ->.
  intros c s' Heq. destruct s1 as [|c1 s1]; rewrite ?append_nil_l, ?append_cons in Heq.
  - apply IH2; [reflexivity | assumption].
  - injection Heq as -> <-. exists s1, s2. auto.
Qed.

Lemma deriv_lang (r : regex) :
  forall c s, lang (deriv c r) s <-> lang r (String c s).
Proof.
  induction r as [| |p|r1 IH1 r2 IH2|r1 IH1 r2 IH2|r IH]; intros c s; simpl.
  - split; intros H; inversion H.
  - split; intros H; inversion H.
  - destruct (p c) eqn:Hp; split; intros H.
    + inversion H; subst. constructor. assumption.
    + inversion H; subst. constructor.
    + inversion H.
    + inversion H; subst. congruence.
  - assert (Hcat : lang (Cat (deriv c r1) r2) s <->
                   exists s1 s2, s = (s1 +:+ s2)
                                 /\ lang r1 (String c s1) /\ lang r2 s2).
    { split.
      - intros H. inversion H; subst. do 2 eexists. split; [reflexivity|].
        split; [apply IH1|]; assumption.
      - intros (s1 & s2 & -> & H1 & H2). constructor; [apply IH1|]; assumption. }
    assert (Hsplit : lang (Cat r1 r2) (String c s) <->
              (exists s1 s2, s = (s1 +:+ s2)
                             /\ lang r1 (String c s1) /\ lang r2 s2)
              \/ (lang r1 "" /\ lang r2 (String c s))).
    { split.
      - intros H. inversion H as [| |? ? s1 s2 H1 H2 [Hr1 Hr2] Heq| | | |]; subst.
        destruct s1 as [|c1 s1]; rewrite ?append_nil_l, ?append_cons in Heq.
        + right. subst. auto.
        + injection Heq as -> <-. left. eauto.
      - intros [(s1 & s2 & -> & H1 & H2)|[H1 H2]].
        + change (String c (s1 ++ s2))%string with (String c s1 +:+ s2).
          constructor; assumption.
        + change (String c s) with ("" +:+ String c s).
          constructor; assumption. }
    rewrite Hsplit. destruct (nullable r1) eqn:Hn.
    + split.
      * intros H. inversion H; subst.
        -- left. apply Hcat. assumption.
        -- right. split; [apply nullable_lang | apply IH2]; assumption.
      * intros [H|[_ H]].
        -- apply lang_alt_l, Hcat. assumption.
        -- apply lang_alt_r, IH2. assumption.
    + rewrite Hcat. split; [auto|].
      intros [H|[H _]]; [assumption|].
      apply nullable_lang in H. congruence.
  - split; intros H; inversion H; subst.
    + apply lang_alt_l, IH1. assumption.
    + apply lang_alt_r, IH2. assumption.
    + apply lang_alt_l, IH1. assumption.
    + apply lang_alt_r, IH2. assumption.
  - split; intros H.
    + inversion H; subst.
      rewrite <- append_cons.
      constructor; [apply IH|]; assumption.
    + destruct (lang_star_cons _ _ H c s eq_refl) as (s1 & s2 & -> & H1 & H2).
      constructor; [apply IH|]; assumption.
Qed.

Lemma matches_lang (s : string) : forall r, matches r s = true <-> lang r s.
Proof.
  induction s as [|c s IH]; intros r; simpl.
  - apply nullable_lang.
  - rewrite IH. apply deriv_lang.
Qed.

Lemma lang_star_any (s : string) : lang (Star any_char) s.
Proof.
  induction s as [|c s IH]; [constructor|].
  rewrite <- (append_nil_l s), <- append_cons.
  constructor; [constructor; reflexivity | assumption].
Qed.

Lemma contains_cons (kind : ascii -> bool) (c : ascii) (s : string) :
  contains kind (String c s) <-> kind c = true \/ contains kind s.
Proof.
  unfold contains; simpl. split.
  - intros (x & [<-|Hin] & Hx); [left | right; exists x]; auto.
  - intros [Hc|(x & Hin & Hx)]; [exists c | exists x]; auto.
Qed.

Lemma contains_split (kind : ascii -> bool) (s : string) :
  contains kind s <-> exists s1 c s2, s = s1 +:+ String c s2 /\ kind c = true.
Proof.
  induction s as [|a s IH].
  - split.
    + intros (x & [] & _).
    + intros (s1 & c & s2 & Heq & _). symmetry in Heq.
      apply append_eq_nil in Heq as [_ Heq]. discriminate.
  - rewrite contains_cons, IH. split.
    + intros [Ha|(s1 & c & s2 & -> & Hc)].
      * exists "", a, s. auto.
      * exists (String a s1), c, s2. auto.
    + intros (s1 & c & s2 & Heq & Hc). destruct s1 as [|b s1].
      * rewrite append_nil_l in Heq. injection Heq as -> ->. auto.
      * rewrite append_cons in Heq. injection Heq as -> ->. right. eauto.
Qed.

(** An unanchored one-character pattern is found exactly in the strings that
    have a character of its class. *)
Lemma found_class (kind : ascii -> bool) (s : string) :
  found (Class kind) s = true <-> contains kind s.
Proof.
  unfold found. rewrite matches_lang, contains_split. split.
  - intros H. inversion H as [| |? ? s1 s' _ H' | | | |]; subst.
    inversion H' as [| |? ? sc s2 Hc _ | | | |]; subst.
    inversion Hc; subst. exists s1, c, s2.
    rewrite append_cons, append_nil_l. auto.
  - intros (s1 & c & s2 & -> & Hc).
    constructor; [apply lang_star_any|].
    rewrite <- (append_nil_l s2), <- append_cons.
    constructor; [constructor; assumption | apply lang_star_any].
Qed.

Lemma contains_dec (kind : ascii -> bool) (s : string) :
  {contains kind s} + {~ contains kind s}.
Proof.
  destruct (found (Class kind) s) eqn:H.
  - left. apply found_class. assumption.
  - right. intros Hc. apply found_class in Hc. congruence.
Qed.

(** ** The validators of the user schema *)

Example email_re_accepts : matches email_re "john.doe@example.com" = true.
Proof. vm_compute. reflexivity. Qed.

Example email_re_rejects : matches email_re "john.doe.example.com" = false.
Proof. vm_compute. reflexivity. Qed.

Example email_validate_accepts_malformed :
  email_validate (JString "john.doe.example.com") = inr tt.
Proof. vm_compute. reflexivity. Qed.

(** C8: the email validator never throws.  For every value it is given the
    argument of [re.test] is the boolean [false], the result of comparing a
    string with [false] by [===]; the pattern is then matched against the
    text of that boolean, which is no email address. *)
Theorem email_validate_never_rejects (value : JsVal) :
  email_validate value = inr tt.
Proof.
  unfold email_validate.
  replace (strict_equals (JString (toLowerCase (ToString value))) (JBoolean false))
    with false by reflexivity.
  vm_compute. reflexivity.
Qed.

Lemma password_validate_ok (value : string) :
  password_validate value = inr tt <-> password_acceptable value.
Proof.
  unfold password_validate, password_acceptable, String_match.
  rewrite <- !found_class.
  destruct (Nat.ltb_spec (String.length value) 8) as [Hlt|Hge].
  - split; [discriminate | intros [H _]; lia].
  - destruct (found (Class is_digit) value), (found (Class is_letter) value);
      simpl; split; try discriminate; intuition congruence.
Qed.

Lemma password_rejected_iff (value : string) :
  password_rejected value <-> ~ password_acceptable value.
Proof.
  unfold password_rejected, password_acceptable. split.
  - intros [H|[H|H]] (H1 & H2 & H3); [lia | auto | auto].
  - intros H.
    destruct (Nat.ltb_spec (String.length value) 8) as [Hlt|Hge]; [auto|].
    destruct (contains_dec is_letter value); [|auto].
    destruct (contains_dec is_digit value); [|auto].
    exfalso. auto.
Qed.

Lemma password_validate_throws (value : string) :
  (exists msg, password_validate value = inl msg) <-> password_rejected value.
Proof.
  rewrite password_rejected_iff, <- password_validate_ok.
  destruct (password_validate value) as [msg|[]]; split.
  - discriminate.
  - eauto.
  - intros [msg H]. discriminate.
  - intros H. exfalso. auto.
Qed.

(** C9: password validation rejects exactly the plaintexts that are shorter
    than 8 characters, or have no alphabetic character, or have no numeric
    character, and reports them as a ValidationError; a plaintext that meets
    the three conditions passes, and the password is hashed only after it
    passed. *)
Theorem password_validation_exact
    (bcrypt_genSalt : Z -> Error + string)
    (bcrypt_hash : string -> string -> Error + string) (user : User.t) :
  let plaintext := User.password user in
  let saved := before_save bcrypt_genSalt bcrypt_hash true user in
  ((exists msg, password_validate plaintext = inl msg) <-> password_rejected plaintext)
  /\ (password_validate plaintext = inr tt <-> password_acceptable plaintext)
  /\ (password_rejected plaintext ->
      exists msg, password_validate plaintext = inl msg
                  /\ saved = inl (ValidationError "password" msg))
  /\ (forall user', saved = inr user' ->
        password_acceptable plaintext
        /\ exists salt,
             bcrypt_genSalt SALT_WORK_FACTOR = inr salt
             /\ bcrypt_hash plaintext salt = inr (User.password user')).
Proof.
  intros plaintext saved.
  split; [apply password_validate_throws|].
  split; [apply password_validate_ok|].
  subst saved. unfold before_save, pre_save. fold plaintext. simpl negb. cbv iota.
  pose proof (password_validate_throws plaintext) as Hthrows.
  pose proof (password_validate_ok plaintext) as Hok.
  destruct (password_validate plaintext) as [msg|[]].
  - split; [eauto | discriminate].
  - assert (Hacc : password_acceptable plaintext) by (apply Hok; reflexivity).
    split.
    + intros Hrej. apply password_rejected_iff in Hrej. exfalso. auto.
    + intros user' H. split; [assumption|].
      destruct (bcrypt_genSalt SALT_WORK_FACTOR) as [e|salt]; [discriminate|].
      exists salt. split; [reflexivity|].
      destruct (bcrypt_hash plaintext salt) as [e|hash]; [discriminate|].
      injection H as <-. reflexivity.
Qed.

Lemma password_validation_exact_witness :
  exists msg,
    password_validate "hunter2" = inl msg
    /\ before_save (fun _ => inr "salt") (fun p salt => inr (salt +:+ p)) true
         (User.mk "u1" "Ann" "ann@example.com" "hunter2" 500 "12 Elm Street")
       = inl (ValidationError "password" msg).
Proof.
  apply (password_validation_exact (fun _ => inr "salt") (fun p salt => inr (salt +:+ p))
           (User.mk "u1" "Ann" "ann@example.com" "hunter2" 500 "12 Elm Street")).
  left. vm_compute. lia.
Defined.

(** ** Checkout *)


Lemma js_round_nonneg (z : Z) : 0 <= z -> 0 <= js_round z.
Proof.
  unfold js_round. intros Hz. cbv zeta.
  destruct (Z.leb_spec (Z.log2 (Z.abs z) - 52) 0); [assumption|].
  apply Z.mul_nonneg_nonneg; [apply Z.sgn_nonneg; assumption|].
  apply Z.shiftl_nonneg.
  assert (0 <= Z.shiftr (Z.abs z) (Z.log2 (Z.abs z) - 52))
    by (apply Z.shiftr_nonneg; lia).
  destruct (_ || _); lia.
Qed.

Lemma totalBill_billed (items : list CartItem) :
  fold_left add_cost items 0 = billed items.
Proof. reflexivity. Qed.





Lemma hasSetNonDefaultAddress_true (config : Config) (user : User.t) :
  User.hasSetNonDefaultAddress config user = true
  <-> User.address user <> default_address config.
Proof.
  unfold User.hasSetNonDefaultAddress.
  rewrite negb_true_iff, String.eqb_neq. reflexivity.
Qed.

Lemma run_bind {A B} (m : M A) (k : A -> M B) (w : World) :
  bind m k w = match m w with (inr a, w') => k a w' | (inl e, w') => (inl e, w') end.
Proof. reflexivity. Qed.

Lemma getCartByUser_run (user : User.t) (w : World) :
  getCartByUser user w =
  match carts w !! User.email user with
  | Some items => (inr (Cart.mk (User.email user) items), w)
  | None => (inl (ApiError 404 "User does not have a cart"), w)
  end.
Proof.
  unfold getCartByUser, Cart_findOne. rewrite run_bind.
  destruct (carts w !! User.email user); reflexivity.
Qed.

(** [checkout] through its guards: either one of them throws, in the state
    the call started in, or the four preconditions hold and what remains is
    the two writes. *)
Lemma checkout_guards (config : Config) (user : User.t) (w : World) :
  (exists e, checkout config user w = (inl e, w)
             /\ forall items, ~ checkout_ready config user w items)
  \/ (exists items,
        checkout_ready config user w items
        /\ checkout config user w =
           (do! Cart_save (Cart.mk (User.email user) []) in
            do! User_save (debited (billed items) user) in
            ret (Cart.mk (User.email user) [], debited (billed items) user)) w).
Proof.
  unfold checkout, checkout_ready. rewrite run_bind, getCartByUser_run.
  destruct (carts w !! User.email user) as [items|] eqn:Hcart.
  2: { left. eexists. split; [reflexivity|]. intros items (H & _). discriminate. }
  cbv zeta. cbn [Cart.cartItems Cart.email].
  destruct items as [|item items].
  { left. eexists. split; [reflexivity|]. intros items (H & Hne & _). congruence. }
  cbn [length Nat.eqb].
  destruct (User.hasSetNonDefaultAddress config user) eqn:Haddr; cbn [negb].
  2: { left. eexists. split; [reflexivity|]. intros its (_ & _ & Ha & _).
       apply hasSetNonDefaultAddress_true in Ha. congruence. }
  apply hasSetNonDefaultAddress_true in Haddr.
  rewrite totalBill_billed.
  destruct (Z.gtb_spec (billed (item :: items)) (User.walletMoney user)) as [Hgt|Hle].
  { left. eexists. split; [reflexivity|]. intros its (H & _ & _ & Hw).
    assert (its = item :: items) by congruence. subst. lia. }
  right. exists (item :: items). split; [|reflexivity].
  repeat split; auto.
Qed.

(** With a driver that accepts its writes, a ready checkout stores the
    emptied cart and the debited user and returns both. *)
Lemma checkout_ready_run (config : Config) (user : User.t) (w : World)
    (items : list CartItem) :
  faults w = [] ->
  checkout_ready config user w items ->
  checkout config user w =
  (inr (Cart.mk (User.email user) [], debited (billed items) user),
   set_users (insert (User._id user) (debited (billed items) user))
     (set_carts (insert (User.email user) []) w)).
Proof.
  intros Hf Hready.
  destruct (checkout_guards config user w) as [(e & _ & Hno)|(its & Hready' & ->)].
  { exfalso. apply (Hno items). assumption. }
  destruct Hready as (Hcart & _), Hready' as (Hcart' & _).
  assert (its = items) by congruence; subst its.
  run. rewrite Hf. simpl. rewrite Hf. reflexivity.
Qed.




Lemma write_outcomes (upd : World -> World) (w : World) :
  (write upd w = (inr tt, upd w) /\ faults w = [])
  \/ (exists fs, write upd w = (inr tt, set_faults fs (upd w)) /\ faults w = false :: fs)
  \/ (exists fs, write upd w = (inl WriteError, set_faults fs w) /\ faults w = true :: fs).
Proof.
  unfold write. destruct (faults w) as [|[] fs]; eauto.
Qed.

(** The four ways a checkout ends. *)
Lemma checkout_cases (config : Config) (user : User.t) (w : World) :
  let r := fst (checkout config user w) in
  let w' := snd (checkout config user w) in
  (exists e, r = inl e /\ (forall items, ~ checkout_ready config user w items) /\ w' = w)
  \/ exists items,
       checkout_ready config user w items
       /\ ((r = inr (Cart.mk (User.email user) [], debited (billed items) user)
            /\ checkout_committed user w w')
           \/ (r = inl WriteError /\ checkout_untouched w w'
               /\ exists fs, faults w = true :: fs)
           \/ (r = inl WriteError /\ checkout_torn user w w'
               /\ exists fs, faults w = false :: true :: fs)).
Proof.
  intros r w'. subst r w'.
  destruct (checkout_guards config user w) as [(e & -> & Hno)|(items & Hready & ->)].
  { left. exists e. auto. }
  right. exists items. split; [assumption|].
  destruct Hready as (Hcart & _).
  unfold Cart_save, User_save. rewrite run_bind. cbn [Cart.email Cart.cartItems].
  destruct (write_outcomes
              (set_carts (insert (User.email user) [])) w)
    as [[-> Hf]|[(fs & -> & Hf)|(fs & -> & Hf)]]; cbn [Cart.email Cart.cartItems].
  - left. rewrite run_bind. unfold write. cbn [faults set_carts]. rewrite Hf.
    cbn. split; [reflexivity|]. exists items. auto.
  - rewrite run_bind. unfold write. cbn [faults set_carts set_faults].
    destruct fs as [|[] fs]; cbn.
    + left. split; [reflexivity|]. exists items. auto.
    + right. right. unfold checkout_torn. cbn. eauto 6.
    + left. split; [reflexivity|]. exists items. auto.
  - right. left. unfold checkout_untouched. cbn. eauto 6.
Qed.

(** What a ready checkout does, by the outcomes of its two writes. *)
Lemma checkout_by_faults (config : Config) (user : User.t) (w : World)
    (items : list CartItem) :
  checkout_ready config user w items ->
  let r := fst (checkout config user w) in
  let w' := snd (checkout config user w) in
  (rejected 0 w -> r = inl WriteError /\ checkout_untouched w w')
  /\ (accepted 0 w -> rejected 1 w -> r = inl WriteError /\ checkout_torn user w w')
  /\ (accepted 0 w -> accepted 1 w ->
      r = inr (Cart.mk (User.email user) [], debited (billed items) user)
      /\ checkout_committed user w w').
Proof.
  intros Hready. cbv zeta.
  destruct (checkout_guards config user w) as [(e & _ & Hno)|(its & Hready' & ->)].
  { exfalso. apply (Hno items). assumption. }
  pose proof Hready as (Hcart & _). destruct Hready' as (Hcart' & _).
  assert (its = items) by congruence; subst its.
  unfold rejected, accepted, checkout_untouched, checkout_torn, checkout_committed.
  destruct (faults w) as [|[] [|[] fs]] eqn:Hf;
    run; rewrite ?Hf; cbn; rewrite ?Hf; cbn;
    repeat split; intros; try discriminate; try reflexivity; eauto.
Qed.

(** C2 (as amended): checkout writes nothing when one of its preconditions
    fails.  When they hold, the outcomes of its two writes decide: with the
    cart write rejected checkout fails and nothing is stored; with the cart
    write accepted and the user write after it rejected checkout fails, the
    emptied cart is stored and the debit is not; with both accepted the cart
    is stored empty and the user is stored debited. *)
Theorem checkout_outcomes (config : Config) (user : User.t) (w : World) :
  let r := fst (checkout config user w) in
  let w' := snd (checkout config user w) in
  ((forall items, ~ checkout_ready config user w items) ->
   (exists e, r = inl e) /\ w' = w)
  /\ (forall items,
        checkout_ready config user w items ->
        (rejected 0 w -> r = inl WriteError /\ checkout_untouched w w')
        /\ (accepted 0 w -> rejected 1 w ->
            r = inl WriteError /\ checkout_torn user w w')
        /\ (accepted 0 w -> accepted 1 w ->
            r = inr (Cart.mk (User.email user) [], debited (billed items) user)
            /\ checkout_committed user w w')).
Proof.
  cbv zeta. split.
  - intros Hno.
    destruct (checkout_guards config user w) as [(e & -> & _)|(items & Hready & _)].
    + split; [exists e|]; reflexivity.
    + exfalso. apply (Hno items). assumption.
  - intros items Hready. apply (checkout_by_faults config user w items Hready).
Qed.

Lemma checkout_outcomes_witness :
  fst (checkout qkart_config ann (shop [false; true])) = inl WriteError
  /\ checkout_torn ann (shop [false; true])
       (snd (checkout qkart_config ann (shop [false; true]))).
Proof.
  refine (proj1 (proj2 (proj2 (checkout_outcomes qkart_config ann (shop [false; true]))
                          [mkItem tea 2] _)) _ _).
  - repeat split; discriminate.
  - reflexivity.
  - reflexivity.
Defined.

(** C2 (as stated) fails: with the cart write accepted and the user write
    rejected, checkout throws and yet the emptied cart is in the store. *)
Lemma checkout_not_all_or_nothing :
  ~ all_or_nothing qkart_config ann (shop [false; true]).
Proof.
  unfold all_or_nothing.
  assert (Hrun : checkout qkart_config ann (shop [false; true]) =
                 (inl WriteError,
                  set_faults [] (set_carts (insert (User.email ann) []) (shop [false; true]))))
    by (vm_compute; reflexivity).
  rewrite Hrun. intros [Hc _]. cbn [carts set_carts set_faults] in Hc.
  apply (f_equal (fun m => m !! User.email ann)) in Hc.
  rewrite lookup_insert_eq in Hc. discriminate.
Qed.

(** With the first three preconditions met, checkout reports the balance
    exactly when the total exceeds the wallet. *)
Lemma checkout_balance_guard (config : Config) (user : User.t) (w : World)
    (items : list CartItem) :
  carts w !! User.email user = Some items ->
  items <> [] ->
  User.address user <> default_address config ->
  fst (checkout config user w) = inl (ApiError 400 "Insuficient Balance")
  <-> User.walletMoney user < billed items.
Proof.
  intros Hcart Hne Haddr. split.
  - intros H.
    destruct (Z.lt_ge_cases (User.walletMoney user) (billed items)) as [|Hle];
      [assumption|exfalso].
    destruct (checkout_cases config user w)
      as [(e & _ & Hno & _)|(its & _ & [(Hr & _)|[(Hr & _)|(Hr & _)]])];
      [apply (Hno items); repeat split; assumption | congruence..].
  - intros Hlt. unfold checkout. rewrite run_bind, getCartByUser_run, Hcart.
    cbv zeta. cbn [Cart.cartItems Cart.email].
    destruct items as [|item items]; [congruence|]. cbn [length Nat.eqb].
    apply hasSetNonDefaultAddress_true in Haddr. rewrite Haddr. cbn [negb].
    rewrite totalBill_billed.
    destruct (Z.gtb_spec (billed (item :: items)) (User.walletMoney user));
      [reflexivity | lia].
Qed.

(** C7: a wallet of 100 against a total of 200.  The guard is the one the
    claim describes, but the message the code throws is spelt
    [Insuficient Balance]. *)
Theorem checkout_insufficient_message :
  fst (checkout qkart_config ann_100 (shop [])) = inl (ApiError 400 "Insuficient Balance")
  /\ "Insuficient Balance" <> "Insufficient Balance".
Proof.
  split; [|discriminate].
  apply (checkout_balance_guard qkart_config ann_100 (shop []) [mkItem tea 2]).
  - reflexivity.
  - discriminate.
  - discriminate.
  - vm_compute. reflexivity.
Qed.

(** A total equal to the wallet is accepted and leaves the wallet at 0. *)
Lemma checkout_exact_balance (config : Config) (user : User.t) (w : World)
    (items : list CartItem) :
  faults w = [] ->
  carts w !! User.email user = Some items ->
  items <> [] ->
  User.address user <> default_address config ->
  billed items = User.walletMoney user ->
  exists user' w',
    checkout config user w = (inr (Cart.mk (User.email user) [], user'), w')
    /\ User.walletMoney user' = 0.
Proof.
  intros Hf Hcart Hne Haddr Heq.
  do 2 eexists. split.
  - apply (checkout_ready_run config user w items); [assumption|].
    repeat split; [assumption.. | lia].
  - unfold debited, js_sub. cbn [User.walletMoney User.set_walletMoney].
    rewrite Heq, Z.sub_diag. reflexivity.
Qed.

(** ** Lookups *)

Lemma same_product_true (productId : string) (item : CartItem) :
  same_product productId item = true <-> Product._id (product item) = productId.
Proof. apply String.eqb_eq. Qed.

Lemma Product_findOne_run (productId : string) (w : World) :
  Product_findOne productId w =
  (inr (find (fun p => String.eqb (Product._id p) productId) (products w)), w).
Proof. reflexivity. Qed.

Lemma Cart_findOne_run (email : string) (w : World) :
  Cart_findOne email w = (inr (Cart.mk email <$> carts w !! email), w).
Proof. reflexivity. Qed.

Lemma find_in_catalog (productId : string) (w : World) :
  in_catalog productId w
  <-> exists prod,
        find (fun p => String.eqb (Product._id p) productId) (products w) = Some prod.
Proof.
  unfold in_catalog. split.
  - intros (prod & Hin & Hid).
    destruct (find _ (products w)) as [found|] eqn:Hfind; [eauto|].
    apply (find_none _ _ Hfind) in Hin. apply String.eqb_neq in Hin. congruence.
  - intros (prod & Hfind). apply find_some in Hfind as [Hin Hid].
    apply String.eqb_eq in Hid. eauto.
Qed.

Lemma find_catalog_id (productId : string) (w : World) (prod : Product.t) :
  find (fun p => String.eqb (Product._id p) productId) (products w) = Some prod ->
  In prod (products w) /\ Product._id prod = productId.
Proof.
  intros Hfind. apply find_some in Hfind as [Hin Hid].
  apply String.eqb_eq in Hid. auto.
Qed.

(** ** References into the filtered array *)

Lemma filter_refs_length {A} (p : A -> bool) (l : list A) :
  forall i, length (filter_refs p l i) = length (List.filter p l).
Proof.
  induction l as [|x l IH]; intros i; simpl; [reflexivity|].
  destruct (p x); simpl; rewrite IH; reflexivity.
Qed.

(** The references designate, in order, the elements [filter] returns. *)
Lemma filter_refs_lookup {A} (p : A -> bool) (l : list A) :
  forall pre : list A,
    Forall2 (fun i x => (pre ++ l)%list !! i = Some x)
            (filter_refs p l (length pre)) (List.filter p l).
Proof.
  induction l as [|x l IH]; intros pre; simpl; [constructor|].
  specialize (IH (pre ++ [x])%list).
  rewrite <- app_assoc, length_app in IH. simpl in IH.
  rewrite Nat.add_1_r in IH.
  destruct (p x); [constructor|]; try assumption.
  apply list_lookup_middle. reflexivity.
Qed.

Lemma filter_refs_none {A} (p : A -> bool) (l : list A) :
  forall i, Forall (fun x => p x = false) l -> filter_refs p l i = [].
Proof.
  induction l as [|x l IH]; intros i Hall; simpl; [reflexivity|].
  inversion Hall as [|? ? Hx Hl]; subst. rewrite Hx. apply IH. assumption.
Qed.

Lemma filter_refs_first {A} (p : A -> bool) (pre : list A) (x : A) (post : list A) :
  Forall (fun y => p y = false) pre -> p x = true ->
  forall i,
    filter_refs p (pre ++ x :: post) i =
    (i + length pre)%nat :: filter_refs p post (S (i + length pre)).
Proof.
  intros Hpre Hx. induction Hpre as [|y pre Hy _ IH]; intros i; simpl.
  - rewrite Hx, Nat.add_0_r. reflexivity.
  - rewrite Hy, IH. replace (S i + length pre)%nat with (i + S (length pre))%nat by lia.
    reflexivity.
Qed.

Lemma alter_middle {A} (f : A -> A) (pre : list A) (x : A) (post : list A) :
  alter f (length pre) (pre ++ x :: post)%list = (pre ++ f x :: post)%list.
Proof.
  induction pre as [|y pre IH]; simpl; [reflexivity|].
  f_equal. exact IH.
Qed.

Lemma first_match_exists (productId : string) (items : list CartItem) :
  in_cart productId items ->
  exists pre item post, first_match productId items pre item post.
Proof.
  unfold in_cart, first_match. induction items as [|i items IH]; intros H.
  - inversion H.
  - destruct (same_product productId i) eqn:Hi.
    + exists [], i, items. auto.
    + inversion H as [? ? Hhd|? ? Htl]; subst; [congruence|].
      destruct (IH Htl) as (pre & item & post & -> & Hpre & Hitem).
      exists (i :: pre), item, post. auto.
Qed.

Lemma first_match_unique (productId : string) (items pre1 pre2 : list CartItem)
    (item1 item2 : CartItem) (post1 post2 : list CartItem) :
  first_match productId items pre1 item1 post1 ->
  first_match productId items pre2 item2 post2 ->
  pre1 = pre2 /\ item1 = item2 /\ post1 = post2.
Proof.
  intros (-> & Hpre1 & H1) (Heq & Hpre2 & H2).
  revert pre2 Heq Hpre2.
  induction Hpre1 as [|x pre1 Hx _ IH]; intros pre2 Heq Hpre2.
  - destruct pre2 as [|y pre2]; simpl in Heq.
    + injection Heq as -> ->. auto.
    + injection Heq as -> _. inversion Hpre2; subst. congruence.
  - destruct pre2 as [|y pre2]; simpl in Heq.
    + injection Heq as -> _. congruence.
    + injection Heq as -> Heq. inversion Hpre2; subst.
      destruct (IH pre2 Heq) as (-> & -> & ->); auto.
Qed.

Lemma first_match_refs (productId : string) (items pre : list CartItem)
    (item : CartItem) (post : list CartItem) :
  first_match productId items pre item post ->
  exists rest, filter_refs (same_product productId) items 0 = length pre :: rest.
Proof.
  intros (-> & Hpre & Hitem).
  rewrite (filter_refs_first _ _ _ _ Hpre Hitem). simpl. eauto.
Qed.

(** ** The cart operations, step by step *)

Lemma Cart_save_accepted (userCart : Cart.t) (w : World) :
  faults w = [] ->
  Cart_save userCart w =
  (inr tt, set_carts (insert (Cart.email userCart) (Cart.cartItems userCart)) w).
Proof. intros Hf. unfold Cart_save, write. rewrite Hf. reflexivity. Qed.

Lemma deleteProductFromCart_run (user : User.t) (productId : string) (w : World) :
  deleteProductFromCart user productId w =
  match carts w !! User.email user with
  | None => (inl (ApiError 400 "User does not have a cart"), w)
  | Some items =>
    (do! Cart_save (Cart.mk (User.email user) (without productId items)) in
     ret (Cart.mk (User.email user) (without productId items))) w
  end.
Proof.
  unfold deleteProductFromCart. cbv zeta.
  rewrite run_bind, Cart_findOne_run.
  destruct (carts w !! User.email user); reflexivity.
Qed.

Lemma updateProductInCart_no_product (user : User.t) (productId : string)
    (quantity : Z) (w : World) :
  ~ in_catalog productId w ->
  updateProductInCart user productId quantity w =
  (inl (ApiError 400 "Product doesn't exist in database"), w).
Proof.
  intros Hno. unfold updateProductInCart. rewrite run_bind, Product_findOne_run.
  destruct (find _ (products w)) as [prod|] eqn:Hfind; [|reflexivity].
  exfalso. apply Hno, find_in_catalog. eauto.
Qed.

Lemma updateProductInCart_run (user : User.t) (productId : string) (quantity : Z)
    (w : World) (items pre : list CartItem) (item : CartItem) (post : list CartItem) :
  in_catalog productId w ->
  carts w !! User.email user = Some items ->
  first_match productId items pre item post ->
  updateProductInCart user productId quantity w =
  if quantity <=? 0
  then deleteProductFromCart user productId w
  else
    (do! Cart_save (Cart.mk (User.email user) (pre ++ set_quantity quantity item :: post)) in
     ret (Cart.mk (User.email user) (pre ++ set_quantity quantity item :: post))) w.
Proof.
  intros Hcat Hcart Hfirst.
  apply find_in_catalog in Hcat as [prod Hfind].
  destruct (first_match_refs _ _ _ _ _ Hfirst) as [rest Hrefs].
  unfold updateProductInCart. rewrite run_bind, Product_findOne_run, Hfind.
  cbv zeta. rewrite run_bind, Cart_findOne_run, Hcart.
  cbn [fmap option_fmap option_map Cart.cartItems Cart.email].
  rewrite Hrefs. cbn [length Nat.eqb lookup list_lookup].
  destruct (quantity <=? 0); [reflexivity|].
  destruct Hfirst as (-> & _). rewrite alter_middle. reflexivity.
Qed.

Lemma filter_some {A} (p : A -> bool) (l : list A) :
  Exists (fun x => p x = true) l -> List.filter p l <> [].
Proof.
  induction 1 as [x l Hx|x l _ IH]; simpl.
  - rewrite Hx. discriminate.
  - destruct (p x); [discriminate | exact IH].
Qed.

Lemma addProductToCart_duplicate (user : User.t) (productId : string) (quantity : Z)
    (w : World) (items : list CartItem) :
  in_catalog productId w ->
  carts w !! User.email user = Some items ->
  in_cart productId items ->
  addProductToCart user productId quantity w =
  (inl (ApiError 400
     "Product already in cart. Use the cart sidebar to update or remove product from cart"),
   w).
Proof.
  intros Hcat Hcart Hin.
  apply find_in_catalog in Hcat as [prod Hfind].
  unfold addProductToCart. rewrite run_bind, Product_findOne_run, Hfind.
  cbv zeta. rewrite run_bind, Cart_findOne_run, Hcart.
  cbn [fmap option_fmap option_map]. rewrite run_bind.
  unfold ret at 1. cbn [Cart.cartItems Cart.email].
  destruct (List.filter (same_product productId) items) as [|i l] eqn:Hfilter;
    [|reflexivity].
  exfalso. revert Hfilter. apply filter_some. exact Hin.
Qed.

Lemma filter_none {A} (p : A -> bool) (l : list A) :
  Forall (fun x => p x = false) l -> List.filter p l = [].
Proof.
  induction 1 as [|x l Hx _ IH]; simpl; [reflexivity|]. rewrite Hx. exact IH.
Qed.

Lemma addProductToCart_existing_cart (user : User.t) (productId : string)
    (quantity : Z) (w : World) (items : list CartItem) (prod : Product.t) :
  find (fun p => String.eqb (Product._id p) productId) (products w) = Some prod ->
  carts w !! User.email user = Some items ->
  Forall (fun item => same_product productId item = false) items ->
  addProductToCart user productId quantity w =
  (do! Cart_save (Cart.mk (User.email user) (items ++ [mkItem prod quantity])) in
   ret (Cart.mk (User.email user) (items ++ [mkItem prod quantity]))) w.
Proof.
  intros Hfind Hcart Hnone.
  unfold addProductToCart. rewrite run_bind, Product_findOne_run, Hfind.
  cbv zeta. rewrite run_bind, Cart_findOne_run, Hcart.
  cbn [fmap option_fmap option_map]. rewrite run_bind.
  unfold ret at 1. cbn [Cart.cartItems Cart.email].
  rewrite (filter_none _ _ Hnone). reflexivity.
Qed.

Lemma addProductToCart_new_cart (user : User.t) (productId : string)
    (quantity : Z) (w : World) (prod : Product.t) :
  find (fun p => String.eqb (Product._id p) productId) (products w) = Some prod ->
  carts w !! User.email user = None ->
  addProductToCart user productId quantity w =
  (do! write (set_carts (insert (User.email user) [])) in
   do! Cart_save (Cart.mk (User.email user) [mkItem prod quantity]) in
   ret (Cart.mk (User.email user) [mkItem prod quantity])) w.
Proof.
  intros Hfind Hcart.
  unfold addProductToCart. rewrite run_bind, Product_findOne_run, Hfind.
  cbv zeta. rewrite run_bind, Cart_findOne_run, Hcart.
  cbn [fmap option_fmap option_map]. unfold Cart_create.
  rewrite !run_bind.
  destruct (write (set_carts (insert (User.email user) [])) w) as [[e|[]] w1];
    reflexivity.
Qed.

Lemma not_in_cart (productId : string) (items : list CartItem) :
  ~ in_cart productId items
  <-> Forall (fun item => same_product productId item = false) items.
Proof.
  unfold in_cart. induction items as [|i items IH].
  - split; [constructor | intros _ H; inversion H].
  - split.
    + intros H. constructor.
      * destruct (same_product productId i) eqn:Hi; [|reflexivity].
        exfalso. apply H. left. assumption.
      * apply IH. intros Hex. apply H. right. assumption.
    + intros H Hex. inversion H as [|? ? Hi Hrest]; subst.
      inversion Hex as [? ? Hhd|? ? Htl]; subst; [congruence|].
      apply IH in Hrest. auto.
Qed.

Lemma without_not_in_cart (productId : string) (items : list CartItem) :
  ~ in_cart productId (without productId items).
Proof.
  apply not_in_cart. unfold without.
  induction items as [|i items IH]; simpl; [constructor|].
  destruct (same_product productId i) eqn:Hi; simpl; [assumption|].
  constructor; assumption.
Qed.

Lemma without_absent (productId : string) (items : list CartItem) :
  ~ in_cart productId items -> without productId items = items.
Proof.
  intros H. apply not_in_cart in H. unfold without.
  induction H as [|i items Hi _ IH]; simpl; [reflexivity|].
  rewrite Hi. simpl. f_equal. exact IH.
Qed.

(** ** Deleting *)

(** The guard of [deleteProductFromCart] on the filtered array never fires:
    the function does not report a product that is not in the cart. *)
Lemma deleteProductFromCart_never_reports_absence (user : User.t)
    (productId : string) (w : World) :
  fst (deleteProductFromCart user productId w) <> inl (ApiError 400 "Product not in cart").
Proof.
  rewrite deleteProductFromCart_run.
  destruct (carts w !! User.email user) as [items|]; [|discriminate].
  rewrite run_bind. unfold Cart_save.
  destruct (write_outcomes
              (set_carts (insert (Cart.email (Cart.mk (User.email user) (without productId items)))
                                 (Cart.cartItems (Cart.mk (User.email user) (without productId items)))))
              w)
    as [[-> _]|[(fs & -> & _)|(fs & -> & _)]]; discriminate.
Qed.

(** With a driver that accepts the write, deleting a product that is not in
    an existing cart returns the cart as it was. *)
Lemma deleteProductFromCart_absent (user : User.t) (productId : string) (w : World)
    (items : list CartItem) :
  faults w = [] ->
  carts w !! User.email user = Some items ->
  ~ in_cart productId items ->
  deleteProductFromCart user productId w =
  (inr (Cart.mk (User.email user) items),
   set_carts (insert (User.email user) items) w).
Proof.
  intros Hf Hcart Hnot.
  rewrite deleteProductFromCart_run, Hcart, run_bind, Cart_save_accepted by assumption.
  rewrite (without_absent _ _ Hnot). reflexivity.
Qed.

(** C1: Ann's cart holds tea only; deleting the mug from it.  The claim
    expects BadRequest [Product not in cart]; the code returns the cart
    unchanged and stores it again. *)
Theorem deleteProductFromCart_absent_product :
  carts (shop []) !! User.email ann = Some [mkItem tea 2]
  /\ ~ in_cart "p2" [mkItem tea 2]
  /\ fst (deleteProductFromCart ann "p2" (shop []))
     = inr (Cart.mk "ann@example.com" [mkItem tea 2])
  /\ carts (snd (deleteProductFromCart ann "p2" (shop []))) !! User.email ann
     = Some [mkItem tea 2].
Proof.
  assert (Hcart : carts (shop []) !! User.email ann = Some [mkItem tea 2])
    by reflexivity.
  assert (Hnot : ~ in_cart "p2" [mkItem tea 2]).
  { apply not_in_cart. constructor; [reflexivity | constructor]. }
  split; [assumption|]. split; [assumption|].
  rewrite (deleteProductFromCart_absent ann "p2" (shop []) [mkItem tea 2])
    by (assumption || reflexivity).
  split; [reflexivity|]. cbn [snd carts set_carts]. apply lookup_insert_eq.
Qed.

(** ** Updating *)

Lemma update_nonpositive_delegates (user : User.t) (productId : string)
    (quantity : Z) (w : World) (items : list CartItem) :
  carts w !! User.email user = Some items ->
  in_cart productId items ->
  in_catalog productId w ->
  quantity <= 0 ->
  updateProductInCart user productId quantity w = deleteProductFromCart user productId w.
Proof.
  intros Hcart Hin Hcat Hq.
  destruct (first_match_exists _ _ Hin) as (pre & item & post & Hfirst).
  rewrite (updateProductInCart_run _ _ _ _ _ _ _ _ Hcat Hcart Hfirst).
  destruct (Z.leb_spec quantity 0); [reflexivity | lia].
Qed.

(** C5 (as amended): when the product is a line item of the cart and is
    still in the catalog, updating it to a quantity of 0 or less is the call
    of deleteProductFromCart: same returned value, same resulting store.
    With the write accepted the returned cart is the old one without the
    line items of the product. *)
Theorem update_nonpositive_is_delete (user : User.t) (productId : string)
    (quantity : Z) (w : World) (items : list CartItem) :
  carts w !! User.email user = Some items ->
  in_cart productId items ->
  in_catalog productId w ->
  quantity <= 0 ->
  updateProductInCart user productId quantity w = deleteProductFromCart user productId w
  /\ ~ in_cart productId (without productId items)
  /\ (faults w = [] ->
      updateProductInCart user productId quantity w =
      (inr (Cart.mk (User.email user) (without productId items)),
       set_carts (insert (User.email user) (without productId items)) w)).
Proof.
  intros Hcart Hin Hcat Hq.
  rewrite (update_nonpositive_delegates _ _ _ _ _ Hcart Hin Hcat Hq).
  split; [reflexivity|]. split; [apply without_not_in_cart|].
  intros Hf.
  rewrite deleteProductFromCart_run, Hcart, run_bind, Cart_save_accepted by assumption.
  reflexivity.
Qed.

Lemma update_nonpositive_is_delete_witness :
  updateProductInCart ann "p1" 0 (shop []) = deleteProductFromCart ann "p1" (shop [])
  /\ ~ in_cart "p1" (without "p1" [mkItem tea 2])
  /\ (faults (shop []) = [] ->
      updateProductInCart ann "p1" 0 (shop []) =
      (inr (Cart.mk (User.email ann) (without "p1" [mkItem tea 2])),
       set_carts (insert (User.email ann) (without "p1" [mkItem tea 2])) (shop []))).
Proof.
  apply (update_nonpositive_is_delete ann "p1" 0 (shop []) [mkItem tea 2]).
  - reflexivity.
  - left. reflexivity.
  - exists tea. split; [left; reflexivity | reflexivity].
  - lia.
Defined.

(** C5 (as stated) fails: tea is a line item of Ann's cart but is no longer
    in the catalog.  The update to quantity 0 throws at its first guard; the
    delete removes the line item. *)
Lemma update_nonpositive_not_delete :
  carts shop_without_tea !! User.email ann = Some [mkItem tea 2]
  /\ in_cart "p1" [mkItem tea 2]
  /\ fst (updateProductInCart ann "p1" 0 shop_without_tea)
     = inl (ApiError 400 "Product doesn't exist in database")
  /\ fst (deleteProductFromCart ann "p1" shop_without_tea)
     = inr (Cart.mk "ann@example.com" [])
  /\ updateProductInCart ann "p1" 0 shop_without_tea
     <> deleteProductFromCart ann "p1" shop_without_tea.
Proof.
  assert (Hu : fst (updateProductInCart ann "p1" 0 shop_without_tea)
               = inl (ApiError 400 "Product doesn't exist in database")).
  { rewrite updateProductInCart_no_product; [reflexivity|].
    intros (prod & [<-|[]] & Hid). discriminate. }
  assert (Hd : fst (deleteProductFromCart ann "p1" shop_without_tea)
               = inr (Cart.mk "ann@example.com" [])).
  { rewrite deleteProductFromCart_run. reflexivity. }
  split; [reflexivity|]. split; [left; reflexivity|].
  split; [assumption|]. split; [assumption|].
  intros Heq. rewrite Heq, Hd in Hu. discriminate.
Qed.

Lemma in_catalog_dec (productId : string) (w : World) :
  {in_catalog productId w} + {~ in_catalog productId w}.
Proof.
  destruct (find (fun p => String.eqb (Product._id p) productId) (products w))
    as [prod|] eqn:Hfind.
  - left. apply find_in_catalog. eauto.
  - right. intros H. apply find_in_catalog in H as [prod H]. congruence.
Qed.

(** What a call that saves one cart and returns it leaves behind. *)
Lemma save_and_return (userCart : Cart.t) (w : World) :
  let r := (do! Cart_save userCart in ret userCart) w in
  ((fst r = inr userCart
    /\ carts (snd r) = <[Cart.email userCart := Cart.cartItems userCart]> (carts w))
   \/ (fst r = inl WriteError /\ carts (snd r) = carts w))
  /\ users (snd r) = users w
  /\ products (snd r) = products w
  /\ (faults w = [] -> fst r = inr userCart).
Proof.
  intros r. subst r. rewrite run_bind. unfold Cart_save.
  destruct (write_outcomes
              (set_carts (insert (Cart.email userCart) (Cart.cartItems userCart))) w)
    as [[-> Hf]|[(fs & -> & Hf)|(fs & -> & Hf)]]; cbn.
  - repeat split; auto.
  - repeat split; auto; intros; congruence.
  - repeat split; auto; intros; congruence.
Qed.

(** C10: on an existing cart that holds the product, an update to a positive
    quantity changes nothing but the quantity of the first line item of that
    product.  The returned and stored cart has the same email, the same line
    items in the same order and, in that line item, the same product; users
    and catalog are as before.  When the call throws, the stored cart is as
    before. *)
Theorem updateProductInCart_frame (user : User.t) (productId : string)
    (quantity : Z) (w : World) (items : list CartItem) :
  carts w !! User.email user = Some items ->
  in_cart productId items ->
  0 < quantity ->
  exists pre item post,
    first_match productId items pre item post
    /\ let items' := (pre ++ mkItem (product item) quantity :: post)%list in
       let r := fst (updateProductInCart user productId quantity w) in
       let w' := snd (updateProductInCart user productId quantity w) in
       ((r = inr (Cart.mk (User.email user) items')
         /\ carts w' = <[User.email user := items']> (carts w))
        \/ ((exists e, r = inl e) /\ carts w' = carts w))
       /\ users w' = users w
       /\ products w' = products w
       /\ (in_catalog productId w -> faults w = [] ->
           r = inr (Cart.mk (User.email user) items')).
Proof.
  intros Hcart Hin Hq.
  destruct (first_match_exists _ _ Hin) as (pre & item & post & Hfirst).
  exists pre, item, post. split; [assumption|]. cbv zeta.
  destruct (in_catalog_dec productId w) as [Hcat|Hno].
  - rewrite (updateProductInCart_run _ _ _ _ _ _ _ _ Hcat Hcart Hfirst).
    destruct (Z.leb_spec quantity 0); [lia|].
    destruct (save_and_return
                (Cart.mk (User.email user) (pre ++ set_quantity quantity item :: post)) w)
      as ([[Hr Hc]|[Hr Hc]] & Hu & Hp & Hok); cbn [Cart.email Cart.cartItems] in *.
    + repeat split; auto.
    + repeat split; eauto.
  - rewrite (updateProductInCart_no_product _ _ _ _ Hno). cbn.
    repeat split; eauto. intros Hcat. contradiction.
Qed.

Lemma updateProductInCart_frame_witness :
  exists pre item post,
    first_match "p1" [mkItem tea 2] pre item post
    /\ let items' := (pre ++ mkItem (product item) 5 :: post)%list in
       let r := fst (updateProductInCart ann "p1" 5 (shop [])) in
       let w' := snd (updateProductInCart ann "p1" 5 (shop [])) in
       ((r = inr (Cart.mk (User.email ann) items')
         /\ carts w' = <[User.email ann := items']> (carts (shop [])))
        \/ ((exists e, r = inl e) /\ carts w' = carts (shop [])))
       /\ users w' = users (shop [])
       /\ products w' = products (shop [])
       /\ (in_catalog "p1" (shop []) -> faults (shop []) = [] ->
           r = inr (Cart.mk (User.email ann) items')).
Proof.
  apply (updateProductInCart_frame ann "p1" 5 (shop []) [mkItem tea 2]).
  - reflexivity.
  - left. reflexivity.
  - lia.
Defined.

(** ** Adding *)

(** C6: when the product is in the catalog and is not a line item of the
    user's cart (or the user has no cart yet), addProductToCart, with a
    driver that accepts its writes, returns and stores the old line items
    followed by one new line item of that product and that quantity; a
    second call for the same product then throws BadRequest and leaves the
    store as it is. *)
Theorem addProductToCart_once (user : User.t) (productId : string)
    (quantity quantity' : Z) (w : World) :
  faults w = [] ->
  in_catalog productId w ->
  ~ in_cart productId (default [] (carts w !! User.email user)) ->
  exists prod w',
    let old := default [] (carts w !! User.email user) in
    let added := (old ++ [mkItem prod quantity])%list in
    In prod (products w) /\ Product._id prod = productId
    /\ addProductToCart user productId quantity w
       = (inr (Cart.mk (User.email user) added), w')
    /\ carts w' !! User.email user = Some added
    /\ addProductToCart user productId quantity' w'
       = (inl (ApiError 400
            "Product already in cart. Use the cart sidebar to update or remove product from cart"),
          w').
Proof.
  intros Hf Hcat Hnot.
  destruct (proj1 (find_in_catalog productId w) Hcat) as [prod Hfind].
  destruct (find_catalog_id _ _ _ Hfind) as [Hprod Hid].
  assert (Hsame : same_product productId (mkItem prod quantity) = true)
    by (apply same_product_true; exact Hid).
  exists prod.
  destruct (carts w !! User.email user) as [items|] eqn:Hcart; simpl in Hnot |- *.
  - exists (set_carts (insert (User.email user) (items ++ [mkItem prod quantity])%list) w).
    cbv zeta. split; [assumption|]. split; [assumption|].
    apply not_in_cart in Hnot.
    rewrite (addProductToCart_existing_cart _ _ _ _ _ _ Hfind Hcart Hnot).
    rewrite run_bind, Cart_save_accepted by assumption.
    split; [reflexivity|].
    assert (Hstored : carts (set_carts (insert (User.email user)
                               (items ++ [mkItem prod quantity])%list) w)
                      !! User.email user = Some (items ++ [mkItem prod quantity])%list)
      by apply lookup_insert_eq.
    split; [assumption|].
    apply (addProductToCart_duplicate user productId quantity'
             (set_carts (insert (User.email user) (items ++ [mkItem prod quantity])%list) w)
             _ Hcat Hstored).
    apply Exists_app. right. left. assumption.
  - exists (set_carts (insert (User.email user) [mkItem prod quantity])
              (set_carts (insert (User.email user) []) w)).
    cbv zeta. split; [assumption|]. split; [assumption|].
    rewrite (addProductToCart_new_cart _ _ _ _ _ Hfind Hcart).
    rewrite run_bind. unfold write at 1. rewrite Hf.
    rewrite run_bind, Cart_save_accepted by assumption.
    split; [reflexivity|].
    assert (Hstored : carts (set_carts (insert (User.email user) [mkItem prod quantity])
                               (set_carts (insert (User.email user) []) w))
                      !! User.email user = Some [mkItem prod quantity])
      by apply lookup_insert_eq.
    split; [assumption|].
    apply (addProductToCart_duplicate user productId quantity'
             (set_carts (insert (User.email user) [mkItem prod quantity])
                (set_carts (insert (User.email user) []) w))
             _ Hcat Hstored).
    left. assumption.
Qed.

Lemma addProductToCart_once_witness :
  exists prod w',
    let old := default [] (carts (shop []) !! User.email ann) in
    let added := (old ++ [mkItem prod 3])%list in
    In prod (products (shop [])) /\ Product._id prod = "p2"
    /\ addProductToCart ann "p2" 3 (shop [])
       = (inr (Cart.mk (User.email ann) added), w')
    /\ carts w' !! User.email ann = Some added
    /\ addProductToCart ann "p2" 1 w'
       = (inl (ApiError 400
            "Product already in cart. Use the cart sidebar to update or remove product from cart"),
          w').
Proof.
  apply (addProductToCart_once ann "p2" 3 1 (shop [])).
  - reflexivity.
  - exists mug. split; [right; left; reflexivity | reflexivity].
  - apply not_in_cart. constructor; [reflexivity | constructor].
Defined.

(** ** The quantity invariant *)

Lemma cart_invariant_insert (email : string) (items : list CartItem) (w : World) :
  cart_invariant w -> positive_quantities items ->
  cart_invariant (set_carts (insert email items) w).
Proof.
  intros Hinv Hpos e its. cbn [carts set_carts].
  destruct (decide (email = e)) as [->|Hne].
  - rewrite lookup_insert_eq. intros [= <-]. assumption.
  - rewrite lookup_insert_ne by assumption. apply Hinv.
Qed.

Lemma cart_invariant_carts (w w' : World) :
  carts w' = carts w -> cart_invariant w -> cart_invariant w'.
Proof. unfold cart_invariant. intros ->. auto. Qed.

Lemma keeps_ret {A} (a : A) (Q : A -> Prop) : Q a -> keeps (ret a) Q.
Proof. intros Ha w Hinv. split; [assumption|]. intros a' [= <-]. assumption. Qed.

Lemma keeps_throw {A} (e : Error) (Q : A -> Prop) : keeps (throw e) Q.
Proof. intros w Hinv. split; [assumption | discriminate]. Qed.

Lemma keeps_bind {A B} (m : M A) (k : A -> M B) (Q : A -> Prop) (R : B -> Prop) :
  keeps m Q -> (forall a, Q a -> keeps (k a) R) -> keeps (bind m k) R.
Proof.
  intros Hm Hk w Hinv. destruct (Hm w Hinv) as [Hinv' Hq].
  rewrite run_bind. destruct (m w) as [[e|a] w']; cbn [fst snd] in *.
  - split; [assumption | discriminate].
  - apply (Hk a (Hq a eq_refl) w' Hinv').
Qed.

Lemma keeps_Product_findOne (productId : string) :
  keeps (Product_findOne productId) (fun _ => True).
Proof. intros w Hinv. split; [assumption | auto]. Qed.

Lemma keeps_Cart_findOne (email : string) :
  keeps (Cart_findOne email) (fun found => forall c, found = Some c -> positive_cart c).
Proof.
  intros w Hinv. split; [assumption|].
  intros found [= <-] c. destruct (carts w !! email) as [items|] eqn:Hcart; [|discriminate].
  intros [= <-]. apply (Hinv email items Hcart).
Qed.

Lemma keeps_write_cart (email : string) (items : list CartItem) :
  positive_quantities items ->
  keeps (write (set_carts (insert email items))) (fun _ => True).
Proof.
  intros Hpos w Hinv. split; [|auto].
  pose proof (cart_invariant_insert email items w Hinv Hpos) as Hins.
  destruct (write_outcomes (set_carts (insert email items)) w)
    as [[-> _]|[(fs & -> & _)|(fs & -> & _)]]; assumption.
Qed.

Lemma keeps_write_user (f : gmap string User.t -> gmap string User.t) :
  keeps (write (set_users f)) (fun _ => True).
Proof.
  intros w Hinv. split; [|auto].
  destruct (write_outcomes (set_users f) w)
    as [[-> _]|[(fs & -> & _)|(fs & -> & _)]]; assumption.
Qed.

Lemma keeps_Cart_save (userCart : Cart.t) :
  positive_cart userCart -> keeps (Cart_save userCart) (fun _ => True).
Proof. apply keeps_write_cart. Qed.

Lemma keeps_Cart_create (email : string) :
  keeps (Cart_create email []) (fun created => forall c, created = Some c -> positive_cart c).
Proof.
  unfold Cart_create. eapply keeps_bind.
  - apply keeps_write_cart. constructor.
  - intros _ _. apply keeps_ret. intros c [= <-]. constructor.
Qed.

Lemma positive_filter (p : CartItem -> bool) (items : list CartItem) :
  positive_quantities items -> positive_quantities (List.filter p items).
Proof.
  unfold positive_quantities. induction 1 as [|i items Hi _ IH]; simpl; [constructor|].
  destruct (p i); [constructor|]; assumption.
Qed.

Create HintDb keeps.
#[local] Hint Resolve keeps_ret keeps_throw keeps_Product_findOne keeps_Cart_findOne
  keeps_Cart_save keeps_Cart_create keeps_write_user positive_filter : keeps.

Lemma keeps_getCartByUser (user : User.t) : keeps (getCartByUser user) positive_cart.
Proof.
  unfold getCartByUser. eapply keeps_bind; [apply keeps_Cart_findOne|].
  intros [c|] Hc; auto with keeps.
Qed.

Lemma keeps_deleteProductFromCart (user : User.t) (productId : string) :
  keeps (deleteProductFromCart user productId) (fun _ => True).
Proof.
  unfold deleteProductFromCart. eapply keeps_bind; [apply keeps_Cart_findOne|].
  intros [c|] Hc; [|auto with keeps]. cbv zeta.
  unfold truthy_array. cbn [negb].
  assert (Hpos : positive_cart
            (Cart.mk (Cart.email c)
               (List.filter (fun item => negb (same_product productId item))
                            (Cart.cartItems c))))
    by (apply positive_filter, Hc; reflexivity).
  eapply keeps_bind; [apply keeps_Cart_save; exact Hpos|].
  intros _ _. auto with keeps.
Qed.

Lemma keeps_addProductToCart (user : User.t) (productId : string) (quantity : Z) :
  0 < quantity -> keeps (addProductToCart user productId quantity) (fun _ => True).
Proof.
  intros Hq. unfold addProductToCart.
  eapply keeps_bind; [apply keeps_Product_findOne|].
  intros [prod|] _; [|auto with keeps]. cbv zeta.
  eapply keeps_bind; [apply keeps_Cart_findOne|]. intros found Hfound.
  eapply (keeps_bind _ _ positive_cart).
  - destruct found as [c|]; [auto with keeps|].
    eapply keeps_bind; [apply keeps_Cart_create|].
    intros [c|] Hc; auto with keeps.
  - intros c Hc.
    destruct (negb _); [auto with keeps|].
    assert (Hpos : positive_cart
              (Cart.mk (Cart.email c) (Cart.cartItems c ++ [mkItem prod quantity]))).
    { apply Forall_app. split; [exact Hc|]. constructor; [exact Hq | constructor]. }
    eapply keeps_bind; [apply keeps_Cart_save; exact Hpos|].
    intros _ _. auto with keeps.
Qed.

Lemma keeps_updateProductInCart (user : User.t) (productId : string) (quantity : Z) :
  keeps (updateProductInCart user productId quantity) (fun _ => True).
Proof.
  unfold updateProductInCart.
  eapply keeps_bind; [apply keeps_Product_findOne|].
  intros [prod|] _; [|auto with keeps]. cbv zeta.
  eapply keeps_bind; [apply keeps_Cart_findOne|].
  intros [c|] Hc; [|auto with keeps].
  destruct (Nat.eqb _ 0); [auto with keeps|].
  destruct (Z.leb_spec quantity 0) as [Hle|Hgt];
    [apply keeps_deleteProductFromCart|].
  destruct (_ !! 0%nat) as [first|]; [|auto with keeps].
  assert (Hpos : positive_cart
            (Cart.mk (Cart.email c)
               (alter (set_quantity quantity) first (Cart.cartItems c)))).
  { apply Forall_alter; [apply Hc; reflexivity|]. intros item _ _. exact Hgt. }
  eapply keeps_bind; [apply keeps_Cart_save; exact Hpos|].
  intros _ _. auto with keeps.
Qed.

Lemma keeps_checkout (config : Config) (user : User.t) :
  keeps (checkout config user) (fun _ => True).
Proof.
  unfold checkout.
  eapply keeps_bind; [apply keeps_getCartByUser|].
  intros c Hc. destruct (Nat.eqb _ 0); [auto with keeps|]. cbv zeta.
  destruct (negb _); [auto with keeps|].
  destruct (_ >? _); [auto with keeps|].
  eapply keeps_bind; [apply keeps_Cart_save; constructor|].
  intros _ _. eapply keeps_bind; [apply keeps_write_user|].
  intros _ _. auto with keeps.
Qed.

Lemma perform_keeps (config : Config) (c : Call) (w : World) :
  adds_positive c -> cart_invariant w -> cart_invariant (perform config c w).
Proof.
  intros Hc Hinv. destruct c as [user pid q|user pid q|user pid|user]; cbn [perform].
  - apply keeps_addProductToCart; assumption.
  - apply keeps_updateProductInCart; assumption.
  - apply keeps_deleteProductFromCart; assumption.
  - apply keeps_checkout; assumption.
Qed.

(** * Further properties of the service *)

(** ** Guards *)

Lemma addProductToCart_no_product (user : User.t) (productId : string)
    (quantity : Z) (w : World) :
  ~ in_catalog productId w ->
  addProductToCart user productId quantity w =
  (inl (ApiError 400 "Product doesn't exist in database"), w).
Proof.
  intros Hno. unfold addProductToCart. rewrite run_bind, Product_findOne_run.
  destruct (find _ (products w)) as [prod|] eqn:Hfind; [|reflexivity].
  exfalso. apply Hno, find_in_catalog. eauto.
Qed.

Lemma updateProductInCart_no_cart (user : User.t) (productId : string)
    (quantity : Z) (w : World) :
  in_catalog productId w ->
  carts w !! User.email user = None ->
  updateProductInCart user productId quantity w =
  (inl (ApiError 400
     "User does not have a cart. Use POST to create cart and add a product"), w).
Proof.
  intros Hcat Hcart. apply find_in_catalog in Hcat as [prod Hfind].
  unfold updateProductInCart. rewrite run_bind, Product_findOne_run, Hfind.
  cbv zeta. rewrite run_bind, Cart_findOne_run, Hcart. reflexivity.
Qed.

Lemma updateProductInCart_absent (user : User.t) (productId : string)
    (quantity : Z) (w : World) (items : list CartItem) :
  in_catalog productId w ->
  carts w !! User.email user = Some items ->
  ~ in_cart productId items ->
  updateProductInCart user productId quantity w =
  (inl (ApiError 400 "Product not in cart"), w).
Proof.
  intros Hcat Hcart Hnot. apply find_in_catalog in Hcat as [prod Hfind].
  apply not_in_cart in Hnot.
  unfold updateProductInCart. rewrite run_bind, Product_findOne_run, Hfind.
  cbv zeta. rewrite run_bind, Cart_findOne_run, Hcart.
  cbn [fmap option_fmap option_map Cart.cartItems Cart.email].
  rewrite (filter_refs_none _ _ _ Hnot). reflexivity.
Qed.

Lemma deleteProductFromCart_no_cart (user : User.t) (productId : string) (w : World) :
  carts w !! User.email user = None ->
  deleteProductFromCart user productId w =
  (inl (ApiError 400 "User does not have a cart"), w).
Proof. intros Hcart. rewrite deleteProductFromCart_run, Hcart. reflexivity. Qed.

Lemma in_cart_dec (productId : string) (items : list CartItem) :
  {in_cart productId items} + {~ in_cart productId items}.
Proof.
  destruct (List.filter (same_product productId) items) as [|i l] eqn:Hfilter.
  - right. intros Hin. apply (filter_some _ _ Hin). assumption.
  - left. unfold in_cart. apply List.Exists_exists. exists i.
    assert (Hi : In i (List.filter (same_product productId) items))
      by (rewrite Hfilter; left; reflexivity).
    apply filter_In in Hi. exact Hi.
Qed.

(** X1: getCartByUser returns the stored cart of the user's email, throws
    404 [User does not have a cart] when there is none, and in both cases
    leaves the database as it was. *)
Theorem getCartByUser_outcomes (user : User.t) (w : World) :
  snd (getCartByUser user w) = w
  /\ (forall items,
        carts w !! User.email user = Some items <->
        fst (getCartByUser user w) = inr (Cart.mk (User.email user) items))
  /\ (carts w !! User.email user = None <->
      fst (getCartByUser user w) = inl (ApiError 404 "User does not have a cart")).
Proof.
  rewrite getCartByUser_run.
  destruct (carts w !! User.email user) as [its|]; cbn [fst snd].
  - split; [reflexivity|]. split.
    + intros items. split; [intros [= ->]; reflexivity | intros [= ->]; reflexivity].
    + split; discriminate.
  - split; [reflexivity|]. split.
    + intros items. split; discriminate.
    + split; reflexivity.
Qed.

(** X2: for a product identifier that is not in the catalog,
    addProductToCart throws 400 [Product doesn't exist in database] before
    it looks at the cart: nothing is written and no cart is created. *)
Theorem addProductToCart_unknown_product (user : User.t) (productId : string)
    (quantity : Z) (w : World) :
  ~ in_catalog productId w ->
  addProductToCart user productId quantity w =
  (inl (ApiError 400 "Product doesn't exist in database"), w).
Proof. apply addProductToCart_no_product. Qed.

Lemma addProductToCart_unknown_product_witness :
  addProductToCart ann "p9" 1 new_shop =
  (inl (ApiError 400 "Product doesn't exist in database"), new_shop).
Proof.
  apply (addProductToCart_unknown_product ann "p9" 1 new_shop).
  intros (prod & [<-|[<-|[]]] & Hid); discriminate.
Defined.

(** X3: updateProductInCart checks the catalog first: for a product
    identifier that is not in the catalog it throws 400 [Product doesn't
    exist in database] and writes nothing, whatever the cart holds. *)
Theorem updateProductInCart_unknown_product (user : User.t) (productId : string)
    (quantity : Z) (w : World) :
  ~ in_catalog productId w ->
  updateProductInCart user productId quantity w =
  (inl (ApiError 400 "Product doesn't exist in database"), w).
Proof. apply updateProductInCart_no_product. Qed.

Lemma updateProductInCart_unknown_product_witness :
  updateProductInCart ann "p1" 7 shop_without_tea =
  (inl (ApiError 400 "Product doesn't exist in database"), shop_without_tea).
Proof.
  apply (updateProductInCart_unknown_product ann "p1" 7 shop_without_tea).
  intros (prod & [<-|[]] & Hid). discriminate.
Defined.

(** X4: updateProductInCart for a catalog product and a user without a cart
    throws 400 [User does not have a cart. Use POST to create cart and add a
    product]; unlike addProductToCart it creates no cart. *)
Theorem updateProductInCart_without_cart (user : User.t) (productId : string)
    (quantity : Z) (w : World) :
  in_catalog productId w ->
  carts w !! User.email user = None ->
  updateProductInCart user productId quantity w =
  (inl (ApiError 400
     "User does not have a cart. Use POST to create cart and add a product"), w).
Proof. apply updateProductInCart_no_cart. Qed.

Lemma updateProductInCart_without_cart_witness :
  updateProductInCart ann "p1" 2 new_shop =
  (inl (ApiError 400
     "User does not have a cart. Use POST to create cart and add a product"), new_shop).
Proof.
  apply (updateProductInCart_without_cart ann "p1" 2 new_shop).
  - exists tea. split; [left; reflexivity | reflexivity].
  - reflexivity.
Defined.

(** X5: updateProductInCart for a catalog product that is not a line item
    of the user's cart throws 400 [Product not in cart], for every quantity
    (also a quantity of 0 or less), and writes nothing. *)
Theorem updateProductInCart_not_in_cart (user : User.t) (productId : string)
    (quantity : Z) (w : World) (items : list CartItem) :
  in_catalog productId w ->
  carts w !! User.email user = Some items ->
  ~ in_cart productId items ->
  updateProductInCart user productId quantity w =
  (inl (ApiError 400 "Product not in cart"), w).
Proof. apply updateProductInCart_absent. Qed.

Lemma updateProductInCart_not_in_cart_witness :
  updateProductInCart ann "p2" 0 (shop []) =
  (inl (ApiError 400 "Product not in cart"), shop []).
Proof.
  apply (updateProductInCart_not_in_cart ann "p2" 0 (shop []) [mkItem tea 2]).
  - exists mug. split; [right; left; reflexivity | reflexivity].
  - reflexivity.
  - apply not_in_cart. constructor; [reflexivity | constructor].
Defined.

(** X6: deleteProductFromCart for a user without a cart throws 400 [User
    does not have a cart] and writes nothing. *)
Theorem deleteProductFromCart_without_cart (user : User.t) (productId : string)
    (w : World) :
  carts w !! User.email user = None ->
  deleteProductFromCart user productId w =
  (inl (ApiError 400 "User does not have a cart"), w).
Proof. apply deleteProductFromCart_no_cart. Qed.

Lemma deleteProductFromCart_without_cart_witness :
  deleteProductFromCart ann "p1" new_shop =
  (inl (ApiError 400 "User does not have a cart"), new_shop).
Proof.
  apply (deleteProductFromCart_without_cart ann "p1" new_shop). reflexivity.
Defined.

(** X7: checkout for a user without a cart throws the 404 [User does not
    have a cart] of getCartByUser and writes nothing. *)
Theorem checkout_without_cart (config : Config) (user : User.t) (w : World) :
  carts w !! User.email user = None ->
  checkout config user w = (inl (ApiError 404 "User does not have a cart"), w).
Proof.
  intros Hcart. unfold checkout. rewrite run_bind, getCartByUser_run, Hcart.
  reflexivity.
Qed.

Lemma checkout_without_cart_witness :
  checkout qkart_config ann new_shop =
  (inl (ApiError 404 "User does not have a cart"), new_shop).
Proof. apply (checkout_without_cart qkart_config ann new_shop). reflexivity. Defined.

(** X8: checkout of a cart without line items throws 400 [Cart is Empty]
    and writes nothing, whatever the address and the wallet are: the cart is
    looked at before the address. *)
Theorem checkout_empty_cart (config : Config) (user : User.t) (w : World) :
  carts w !! User.email user = Some [] ->
  checkout config user w = (inl (ApiError 400 "Cart is Empty"), w).
Proof.
  intros Hcart. unfold checkout. rewrite run_bind, getCartByUser_run, Hcart.
  reflexivity.
Qed.

Lemma checkout_empty_cart_witness :
  checkout qkart_config ann (set_carts (insert "ann@example.com" []) new_shop) =
  (inl (ApiError 400 "Cart is Empty"),
   set_carts (insert "ann@example.com" []) new_shop).
Proof.
  apply (checkout_empty_cart qkart_config ann
           (set_carts (insert "ann@example.com" []) new_shop)).
  reflexivity.
Defined.

(** X9: checkout of a cart with line items, for a user whose address is the
    configured default, throws 400 [Address not set] and writes nothing,
    whatever the total and the wallet are: the address is looked at before
    the balance. *)
Theorem checkout_address_not_set (config : Config) (user : User.t) (w : World)
    (items : list CartItem) :
  carts w !! User.email user = Some items ->
  items <> [] ->
  User.address user = default_address config ->
  checkout config user w = (inl (ApiError 400 "Address not set"), w).
Proof.
  intros Hcart Hne Haddr. unfold checkout.
  rewrite run_bind, getCartByUser_run, Hcart. cbv zeta.
  cbn [Cart.cartItems Cart.email].
  destruct items as [|item items]; [congruence|]. cbn [length Nat.eqb].
  unfold User.hasSetNonDefaultAddress. rewrite Haddr, String.eqb_refl.
  reflexivity.
Qed.

Lemma checkout_address_not_set_witness :
  checkout {| default_address := "123 Main St" |} ann (shop []) =
  (inl (ApiError 400 "Address not set"), shop []).
Proof.
  apply (checkout_address_not_set {| default_address := "123 Main St" |} ann (shop [])
           [mkItem tea 2]).
  - reflexivity.
  - discriminate.
  - reflexivity.
Defined.

(** ** What a delete leaves *)

Lemma without_without (productId : string) (items : list CartItem) :
  without productId (without productId items) = without productId items.
Proof. apply without_absent, without_not_in_cart. Qed.

Lemma without_sublist (productId : string) (items : list CartItem) :
  sublist (without productId items) items.
Proof.
  unfold without. induction items as [|i items IH]; simpl; [constructor|].
  destruct (negb (same_product productId i)); constructor; assumption.
Qed.

Lemma without_In (productId : string) (items : list CartItem) (item : CartItem) :
  In item (without productId items)
  <-> In item items /\ same_product productId item = false.
Proof.
  unfold without. rewrite filter_In, negb_true_iff. reflexivity.
Qed.

Lemma deleteProductFromCart_accepted (user : User.t) (productId : string)
    (w : World) (items : list CartItem) :
  faults w = [] ->
  carts w !! User.email user = Some items ->
  deleteProductFromCart user productId w =
  (inr (Cart.mk (User.email user) (without productId items)),
   set_carts (insert (User.email user) (without productId items)) w).
Proof.
  intros Hf Hcart.
  rewrite deleteProductFromCart_run, Hcart, run_bind, Cart_save_accepted by assumption.
  reflexivity.
Qed.

(** X10: on an existing cart, with the write accepted, deleteProductFromCart
    returns and stores the line items that are not of the product: every
    line item of the product is removed (all of them when there are several),
    every other line item is kept, and the order is kept. *)
Theorem deleteProductFromCart_removes_all (user : User.t) (productId : string)
    (w : World) (items : list CartItem) :
  faults w = [] ->
  carts w !! User.email user = Some items ->
  exists kept w',
    deleteProductFromCart user productId w = (inr (Cart.mk (User.email user) kept), w')
    /\ carts w' !! User.email user = Some kept
    /\ ~ in_cart productId kept
    /\ sublist kept items
    /\ forall item, In item kept
                    <-> In item items /\ Product._id (product item) <> productId.
Proof.
  intros Hf Hcart.
  exists (without productId items),
         (set_carts (insert (User.email user) (without productId items)) w).
  split; [apply deleteProductFromCart_accepted; assumption|].
  split; [apply lookup_insert_eq|].
  split; [apply without_not_in_cart|].
  split; [apply without_sublist|].
  intros item. rewrite without_In. unfold same_product.
  rewrite String.eqb_neq. reflexivity.
Qed.

Lemma deleteProductFromCart_removes_all_witness :
  exists kept w',
    deleteProductFromCart ann "p1" shop_with_two_teas
    = (inr (Cart.mk (User.email ann) kept), w')
    /\ carts w' !! User.email ann = Some kept
    /\ ~ in_cart "p1" kept
    /\ sublist kept [mkItem tea 2; mkItem mug 1; mkItem tea 4]
    /\ forall item, In item kept
                    <-> In item [mkItem tea 2; mkItem mug 1; mkItem tea 4]
                        /\ Product._id (product item) <> "p1".
Proof.
  apply (deleteProductFromCart_removes_all ann "p1" shop_with_two_teas
           [mkItem tea 2; mkItem mug 1; mkItem tea 4]).
  - reflexivity.
  - reflexivity.
Defined.

(** X11: deleting is idempotent.  With the writes accepted, a second
    deleteProductFromCart of the same product returns the cart the first one
    returned and leaves the carts as the first one left them. *)
Theorem deleteProductFromCart_twice (user : User.t) (productId : string)
    (w : World) (items : list CartItem) :
  faults w = [] ->
  carts w !! User.email user = Some items ->
  let once := deleteProductFromCart user productId w in
  let twice := deleteProductFromCart user productId (snd once) in
  fst twice = fst once /\ carts (snd twice) = carts (snd once).
Proof.
  intros Hf Hcart once twice. subst twice once.
  rewrite (deleteProductFromCart_accepted _ _ _ _ Hf Hcart). cbn [fst snd].
  rewrite (deleteProductFromCart_accepted _ _ _ (without productId items)).
  - rewrite without_without. cbn [fst snd carts set_carts].
    split; [reflexivity | apply insert_insert_eq].
  - exact Hf.
  - apply lookup_insert_eq.
Qed.

Lemma deleteProductFromCart_twice_witness :
  let once := deleteProductFromCart ann "p1" (shop []) in
  let twice := deleteProductFromCart ann "p1" (snd once) in
  fst twice = fst once /\ carts (snd twice) = carts (snd once).
Proof.
  apply (deleteProductFromCart_twice ann "p1" (shop []) [mkItem tea 2]).
  - reflexivity.
  - reflexivity.
Defined.

(** ** Calls one after the other *)

Lemma addProductToCart_accepted (user : User.t) (productId : string)
    (quantity : Z) (w : World) (prod : Product.t) :
  faults w = [] ->
  find (fun p => String.eqb (Product._id p) productId) (products w) = Some prod ->
  ~ in_cart productId (default [] (carts w !! User.email user)) ->
  exists w',
    addProductToCart user productId quantity w
    = (inr (Cart.mk (User.email user)
              (default [] (carts w !! User.email user) ++ [mkItem prod quantity])), w')
    /\ carts w'
       = <[User.email user :=
             (default [] (carts w !! User.email user) ++ [mkItem prod quantity])%list]>
           (carts w)
    /\ faults w' = [] /\ products w' = products w /\ users w' = users w.
Proof.
  intros Hf Hfind Hnot.
  destruct (carts w !! User.email user) as [items|] eqn:Hcart; simpl in Hnot |- *.
  - apply not_in_cart in Hnot.
    rewrite (addProductToCart_existing_cart _ _ _ _ _ _ Hfind Hcart Hnot).
    rewrite run_bind, Cart_save_accepted by assumption.
    eexists. split; [reflexivity|]. cbn. auto.
  - rewrite (addProductToCart_new_cart _ _ _ _ _ Hfind Hcart).
    rewrite run_bind. unfold write at 1. rewrite Hf.
    rewrite run_bind, Cart_save_accepted by assumption.
    eexists. split; [reflexivity|]. cbn.
    split; [apply insert_insert_eq | auto].
Qed.

Lemma without_app (productId : string) (l1 l2 : list CartItem) :
  without productId (l1 ++ l2) = (without productId l1 ++ without productId l2)%list.
Proof. apply List.filter_app. Qed.

(** X12: adding a product and deleting it again gives back the line items
    the cart had.  With the writes accepted, for a catalog product that was
    not in the cart, deleteProductFromCart after addProductToCart returns
    the old line items and stores them; the carts are as before the two
    calls when the user had a cart, and hold an empty cart for the user when
    there was none (the cart the first call created stays). *)
Theorem add_then_delete (user : User.t) (productId : string) (quantity : Z)
    (w : World) :
  faults w = [] ->
  in_catalog productId w ->
  ~ in_cart productId (default [] (carts w !! User.email user)) ->
  let old := default [] (carts w !! User.email user) in
  let added := snd (addProductToCart user productId quantity w) in
  let deleted := deleteProductFromCart user productId added in
  fst deleted = inr (Cart.mk (User.email user) old)
  /\ carts (snd deleted) = <[User.email user := old]> (carts w)
  /\ (is_Some (carts w !! User.email user) -> carts (snd deleted) = carts w).
Proof.
  intros Hf Hcat Hnot. cbv zeta.
  destruct (proj1 (find_in_catalog productId w) Hcat) as [prod Hfind].
  destruct (find_catalog_id _ _ _ Hfind) as [_ Hid].
  destruct (addProductToCart_accepted user productId quantity w prod Hf Hfind Hnot)
    as (w' & -> & Hcarts & Hf' & _).
  set (old := default [] (carts w !! User.email user)) in *. cbn [snd].
  assert (Hstored : carts w' !! User.email user = Some (old ++ [mkItem prod quantity])%list)
    by (rewrite Hcarts; apply lookup_insert_eq).
  rewrite (deleteProductFromCart_accepted _ _ _ _ Hf' Hstored).
  assert (Hback : without productId (old ++ [mkItem prod quantity]) = old).
  { rewrite without_app, (without_absent _ _ Hnot). unfold without. simpl.
    replace (same_product productId (mkItem prod quantity)) with true
      by (symmetry; apply same_product_true; exact Hid).
    simpl. apply app_nil_r. }
  rewrite Hback. cbn [fst snd carts set_carts].
  rewrite Hcarts, insert_insert_eq.
  split; [reflexivity|]. split; [reflexivity|].
  intros [items Hsome]. apply insert_id. subst old. rewrite Hsome. reflexivity.
Qed.

Lemma add_then_delete_witness :
  let old := default [] (carts (shop []) !! User.email ann) in
  let added := snd (addProductToCart ann "p2" 3 (shop [])) in
  let deleted := deleteProductFromCart ann "p2" added in
  fst deleted = inr (Cart.mk (User.email ann) old)
  /\ carts (snd deleted) = <[User.email ann := old]> (carts (shop []))
  /\ (is_Some (carts (shop []) !! User.email ann) -> carts (snd deleted) = carts (shop [])).
Proof.
  apply (add_then_delete ann "p2" 3 (shop [])).
  - reflexivity.
  - exists mug. split; [right; left; reflexivity | reflexivity].
  - apply not_in_cart. constructor; [reflexivity | constructor].
Defined.

Lemma updateProductInCart_accepted (user : User.t) (productId : string)
    (quantity : Z) (w : World) (items pre : list CartItem) (item : CartItem)
    (post : list CartItem) :
  faults w = [] ->
  in_catalog productId w ->
  carts w !! User.email user = Some items ->
  first_match productId items pre item post ->
  0 < quantity ->
  updateProductInCart user productId quantity w =
  (inr (Cart.mk (User.email user) (pre ++ set_quantity quantity item :: post)),
   set_carts (insert (User.email user) (pre ++ set_quantity quantity item :: post)%list) w).
Proof.
  intros Hf Hcat Hcart Hfirst Hq.
  rewrite (updateProductInCart_run _ _ _ _ _ _ _ _ Hcat Hcart Hfirst).
  destruct (Z.leb_spec quantity 0); [lia|].
  rewrite run_bind, Cart_save_accepted by assumption. reflexivity.
Qed.

Lemma first_match_set_quantity (productId : string) (quantity : Z)
    (items pre : list CartItem) (item : CartItem) (post : list CartItem) :
  first_match productId items pre item post ->
  first_match productId (pre ++ set_quantity quantity item :: post) pre
    (set_quantity quantity item) post.
Proof. intros (_ & Hpre & Hitem). repeat split; assumption. Qed.

(** X13: the last update wins.  With the writes accepted, for a catalog
    product in the cart, an update to a positive quantity followed by an
    update to another positive quantity returns and stores what the second
    update alone would have. *)
Theorem update_then_update (user : User.t) (productId : string) (q1 q2 : Z)
    (w : World) (items : list CartItem) :
  faults w = [] ->
  in_catalog productId w ->
  carts w !! User.email user = Some items ->
  in_cart productId items ->
  0 < q1 -> 0 < q2 ->
  let first := updateProductInCart user productId q1 w in
  let second := updateProductInCart user productId q2 (snd first) in
  let direct := updateProductInCart user productId q2 w in
  fst second = fst direct /\ carts (snd second) = carts (snd direct).
Proof.
  intros Hf Hcat Hcart Hin Hq1 Hq2 first second direct. subst second first direct.
  destruct (first_match_exists _ _ Hin) as (pre & item & post & Hfirst).
  rewrite (updateProductInCart_accepted _ _ q1 _ _ _ _ _ Hf Hcat Hcart Hfirst Hq1).
  rewrite (updateProductInCart_accepted _ _ q2 _ _ _ _ _ Hf Hcat Hcart Hfirst Hq2).
  cbn [fst snd].
  rewrite (updateProductInCart_accepted user productId q2
             (set_carts (insert (User.email user)
                           (pre ++ set_quantity q1 item :: post)%list) w)
             (pre ++ set_quantity q1 item :: post) pre (set_quantity q1 item) post).
  - cbn [fst snd carts set_carts]. split; [reflexivity | apply insert_insert_eq].
  - exact Hf.
  - exact Hcat.
  - apply lookup_insert_eq.
  - apply first_match_set_quantity with (items := items). exact Hfirst.
  - exact Hq2.
Qed.

Lemma update_then_update_witness :
  let first := updateProductInCart ann "p1" 5 (shop []) in
  let second := updateProductInCart ann "p1" 1 (snd first) in
  let direct := updateProductInCart ann "p1" 1 (shop []) in
  fst second = fst direct /\ carts (snd second) = carts (snd direct).
Proof.
  apply (update_then_update ann "p1" 5 1 (shop []) [mkItem tea 2]).
  - reflexivity.
  - exists tea. split; [left; reflexivity | reflexivity].
  - reflexivity.
  - left. reflexivity.
  - lia.
  - lia.
Defined.

(** X14: a cart is checked out once.  After a checkout that succeeded, a
    second checkout for the same email throws 400 [Cart is Empty] and writes
    nothing: the wallet is not debited again. *)
Theorem checkout_twice (config : Config) (user again : User.t) (w : World)
    (items : list CartItem) :
  faults w = [] ->
  checkout_ready config user w items ->
  User.email again = User.email user ->
  let w' := snd (checkout config user w) in
  checkout config again w' = (inl (ApiError 400 "Cart is Empty"), w').
Proof.
  intros Hf Hready Hemail w'. subst w'.
  rewrite (checkout_ready_run config user w items Hf Hready). cbn [snd].
  unfold checkout. rewrite run_bind, getCartByUser_run, Hemail.
  cbn [carts set_carts set_users]. rewrite lookup_insert_eq. reflexivity.
Qed.

Lemma checkout_twice_witness :
  let w' := snd (checkout qkart_config ann (shop [])) in
  checkout qkart_config ann w' = (inl (ApiError 400 "Cart is Empty"), w').
Proof.
  apply (checkout_twice qkart_config ann ann (shop []) [mkItem tea 2]).
  - reflexivity.
  - repeat split; discriminate.
  - reflexivity.
Defined.

(** X15: checkout never overdraws.  Whenever checkout returns, whatever the
    cart, the wallet and the driver did, the returned cart has no line item
    and the user's walletMoney is not negative; the store holds that empty
    cart and that user. *)
Theorem checkout_never_overdraws (config : Config) (user : User.t) (w : World)
    (userCart : Cart.t) (user' : User.t) :
  fst (checkout config user w) = inr (userCart, user') ->
  0 <= User.walletMoney user'
  /\ Cart.cartItems userCart = []
  /\ carts (snd (checkout config user w)) !! User.email user = Some []
  /\ users (snd (checkout config user w)) !! User._id user = Some user'.
Proof.
  intros Hr.
  destruct (checkout_cases config user w)
    as [(e & He & _)|(items & Hready & [(Hok & Hcommit)|[(He & _)|(He & _)]])];
    try congruence.
  rewrite Hok in Hr. injection Hr as <- <-.
  destruct Hready as (Hcart & _ & _ & Hle).
  destruct Hcommit as (its & Hcart' & -> & ->).
  assert (its = items) by congruence; subst its.
  split; [|split; [reflexivity|]].
  { unfold debited, js_sub. cbn [User.walletMoney User.set_walletMoney].
    apply js_round_nonneg. lia. }
  split; apply lookup_insert_eq.
Qed.

Lemma checkout_never_overdraws_witness :
  0 <= User.walletMoney (debited 200 ann)
  /\ Cart.cartItems (Cart.mk "ann@example.com" []) = []
  /\ carts (snd (checkout qkart_config ann (shop [false; false]))) !! User.email ann
     = Some []
  /\ users (snd (checkout qkart_config ann (shop [false; false]))) !! User._id ann
     = Some (debited 200 ann).
Proof.
  apply (checkout_never_overdraws qkart_config ann (shop [false; false])).
  vm_compute. reflexivity.
Defined.

Lemma blind_ret {A} (a : A) : catalog_blind (ret a).
Proof. intros ps w. reflexivity. Qed.

Lemma blind_throw {A} (e : Error) : catalog_blind (@throw A e).
Proof. intros ps w. reflexivity. Qed.

Lemma blind_bind {A B} (m : M A) (k : A -> M B) :
  catalog_blind m -> (forall a, catalog_blind (k a)) -> catalog_blind (bind m k).
Proof.
  intros Hm Hk ps w. rewrite !run_bind, Hm.
  destruct (m w) as [[e|a] w']; cbn [fst snd]; [reflexivity | apply Hk].
Qed.

Lemma blind_Cart_findOne (email : string) : catalog_blind (Cart_findOne email).
Proof. intros ps w. reflexivity. Qed.

Lemma blind_write (upd : World -> World) :
  (forall ps w, upd (set_products ps w) = set_products ps (upd w)) ->
  catalog_blind (write upd).
Proof.
  intros Hupd ps w. unfold write. cbn [faults set_products].
  destruct (faults w) as [|[] fs]; cbn [fst snd]; rewrite ?Hupd; reflexivity.
Qed.

(** X16: checkout bills the cart, not the catalog.  The total is computed
    from the product snapshots in the line items, so replacing the catalog
    (other prices, products withdrawn) changes neither what checkout returns
    nor what it stores. *)
Theorem checkout_ignores_catalog (config : Config) (user : User.t) (w : World)
    (ps : list Product.t) :
  checkout config user (set_products ps w) =
  (fst (checkout config user w), set_products ps (snd (checkout config user w))).
Proof.
  revert ps w. change (catalog_blind (checkout config user)).
  unfold checkout, getCartByUser.
  apply blind_bind.
  - apply blind_bind; [apply blind_Cart_findOne|].
    intros [c|]; [apply blind_ret | apply blind_throw].
  - intros userCart.
    destruct (Nat.eqb _ 0); [apply blind_throw|]. cbv zeta.
    destruct (negb _); [apply blind_throw|].
    destruct (_ >? _); [apply blind_throw|].
    apply blind_bind; [apply blind_write; reflexivity|]. intros _.
    apply blind_bind; [apply blind_write; reflexivity|]. intros _.
    apply blind_ret.
Qed.

(** X17: deleteProductFromCart never consults the catalog: with another
    catalog it returns the same and stores the same.  (The update and the
    add do consult it, at their first guard.) *)
Theorem deleteProductFromCart_ignores_catalog (user : User.t) (productId : string)
    (w : World) (ps : list Product.t) :
  deleteProductFromCart user productId (set_products ps w) =
  (fst (deleteProductFromCart user productId w),
   set_products ps (snd (deleteProductFromCart user productId w))).
Proof.
  revert ps w. change (catalog_blind (deleteProductFromCart user productId)).
  unfold deleteProductFromCart.
  apply blind_bind; [apply blind_Cart_findOne|].
  intros [userCart|]; [|apply blind_throw]. cbv zeta.
  destruct (negb _); [apply blind_throw|].
  apply blind_bind; [apply blind_write; reflexivity|]. intros _.
  apply blind_ret.
Qed.

(** ** The effect of a call on the store *)

Lemma save_effect (c : Call) (items' : list CartItem) (w : World) :
  rewritten (products w) (carts w !! User.email (caller c)) c items' ->
  let w' := snd ((do! Cart_save (Cart.mk (User.email (caller c)) items') in
                  ret (Cart.mk (User.email (caller c)) items')) w) in
  cart_effect c w w' /\ users w' = users w.
Proof.
  intros Hrew w'. subst w'.
  destruct (save_and_return (Cart.mk (User.email (caller c)) items') w)
    as ([[_ Hc]|[_ Hc]] & Hu & Hp & _); cbn [Cart.email Cart.cartItems] in *.
  - split; [|assumption]. split; [assumption|]. right. eauto.
  - split; [|assumption]. split; [assumption|]. left. assumption.
Qed.

Lemma unchanged_effect (c : Call) (w w' : World) :
  products w' = products w -> carts w' = carts w -> cart_effect c w w'.
Proof. intros Hp Hc. split; [assumption | left; assumption]. Qed.

Lemma addProductToCart_effect (user : User.t) (productId : string) (quantity : Z)
    (w : World) :
  let w' := snd (addProductToCart user productId quantity w) in
  cart_effect (Add user productId quantity) w w' /\ users w' = users w.
Proof.
  cbv zeta.
  destruct (in_catalog_dec productId w) as [Hcat|Hno].
  2: { rewrite (addProductToCart_no_product _ _ _ _ Hno).
       split; [apply unchanged_effect; reflexivity | reflexivity]. }
  destruct (proj1 (find_in_catalog productId w) Hcat) as [prod Hfind].
  destruct (carts w !! User.email user) as [items|] eqn:Hcart.
  - destruct (in_cart_dec productId items) as [Hin|Hnot].
    + rewrite (addProductToCart_duplicate _ _ _ _ _ Hcat Hcart Hin).
      split; [apply unchanged_effect; reflexivity | reflexivity].
    + rewrite (addProductToCart_existing_cart _ _ _ _ _ _ Hfind Hcart
                 (proj1 (not_in_cart _ _) Hnot)).
      apply (save_effect (Add user productId quantity)).
      cbn [caller]. rewrite Hcart.
      apply (rewritten_added _ (Some items) user productId quantity prod Hfind Hnot).
  - rewrite (addProductToCart_new_cart _ _ _ _ _ Hfind Hcart).
    assert (Hnone : ~ in_cart productId []) by (intros H; inversion H).
    assert (Hsaved : forall w1,
               products w1 = products w -> users w1 = users w ->
               carts w1 = <[User.email user := []]> (carts w) ->
               let w' := snd ((do! Cart_save (Cart.mk (User.email user) [mkItem prod quantity]) in
                               ret (Cart.mk (User.email user) [mkItem prod quantity])) w1) in
               cart_effect (Add user productId quantity) w w' /\ users w' = users w).
    { intros w1 Hp1 Hu1 Hc1 w'. subst w'.
      destruct (save_and_return (Cart.mk (User.email user) [mkItem prod quantity]) w1)
        as ([[_ Hc]|[_ Hc]] & Hu & Hp & _); cbn [Cart.email Cart.cartItems] in *.
      - split; [|congruence]. split; [congruence|]. right.
        exists [mkItem prod quantity]. cbn [caller]. rewrite Hcart. split.
        + apply (rewritten_added _ None user productId quantity prod Hfind Hnone).
        + rewrite Hc, Hc1. apply insert_insert_eq.
      - split; [|congruence]. split; [congruence|]. right.
        exists []. cbn [caller]. rewrite Hcart. split.
        + apply (rewritten_created _ _ user productId quantity prod Hfind). reflexivity.
        + congruence. }
    rewrite run_bind.
    destruct (write_outcomes (set_carts (insert (User.email user) [])) w)
      as [[-> _]|[(fs & -> & _)|(fs & -> & _)]].
    + apply Hsaved; reflexivity.
    + apply Hsaved; reflexivity.
    + split; [apply unchanged_effect; reflexivity | reflexivity].
Qed.

Lemma deleteProductFromCart_effect (user : User.t) (productId : string) (w : World) :
  let w' := snd (deleteProductFromCart user productId w) in
  cart_effect (Delete user productId) w w' /\ users w' = users w.
Proof.
  cbv zeta. rewrite deleteProductFromCart_run.
  destruct (carts w !! User.email user) as [items|] eqn:Hcart.
  - apply (save_effect (Delete user productId)). cbn [caller]. rewrite Hcart.
    apply rewritten_removed. reflexivity.
  - split; [apply unchanged_effect; reflexivity | reflexivity].
Qed.

Lemma updateProductInCart_effect (user : User.t) (productId : string) (quantity : Z)
    (w : World) :
  let w' := snd (updateProductInCart user productId quantity w) in
  cart_effect (Update user productId quantity) w w' /\ users w' = users w.
Proof.
  cbv zeta.
  destruct (in_catalog_dec productId w) as [Hcat|Hno].
  2: { rewrite (updateProductInCart_no_product _ _ _ _ Hno).
       split; [apply unchanged_effect; reflexivity | reflexivity]. }
  destruct (carts w !! User.email user) as [items|] eqn:Hcart.
  2: { rewrite (updateProductInCart_no_cart _ _ _ _ Hcat Hcart).
       split; [apply unchanged_effect; reflexivity | reflexivity]. }
  destruct (in_cart_dec productId items) as [Hin|Hnot].
  2: { rewrite (updateProductInCart_absent _ _ _ _ _ Hcat Hcart Hnot).
       split; [apply unchanged_effect; reflexivity | reflexivity]. }
  destruct (first_match_exists _ _ Hin) as (pre & item & post & Hfirst).
  rewrite (updateProductInCart_run _ _ _ _ _ _ _ _ Hcat Hcart Hfirst).
  destruct (Z.leb_spec quantity 0) as [Hle|Hgt].
  - rewrite deleteProductFromCart_run, Hcart.
    apply (save_effect (Update user productId quantity)). cbn [caller]. rewrite Hcart.
    apply (rewritten_update_removed _ _ user productId quantity items);
      [reflexivity | assumption | assumption].
  - apply (save_effect (Update user productId quantity)). cbn [caller]. rewrite Hcart.
    apply (rewritten_updated _ _ user productId quantity items);
      [reflexivity | assumption | assumption].
Qed.

Lemma written_keeps_catalog (upd : World -> World) (w : World) :
  (forall w0, products (upd w0) = products w0) ->
  products (snd (write upd w)) = products w.
Proof.
  intros Hupd.
  destruct (write_outcomes upd w) as [[-> _]|[(fs & -> & _)|(fs & -> & _)]];
    cbn [snd set_faults products]; auto.
Qed.

Lemma checkout_keeps_catalog (config : Config) (user : User.t) (w : World) :
  products (snd (checkout config user w)) = products w.
Proof.
  destruct (checkout_guards config user w) as [(e & -> & _)|(items & _ & ->)];
    [reflexivity|].
  unfold Cart_save, User_save. rewrite run_bind.
  pose proof (written_keeps_catalog
                (set_carts (insert (Cart.email (Cart.mk (User.email user) []))
                                   (Cart.cartItems (Cart.mk (User.email user) []))))
                w (fun _ => eq_refl)) as H1.
  destruct (write _ w) as [[e|[]] w1]; cbn [snd] in *; [assumption|].
  rewrite run_bind.
  pose proof (written_keeps_catalog
                (set_users (insert (User._id (debited (billed items) user))
                                   (debited (billed items) user)))
                w1 (fun _ => eq_refl)) as H2.
  destruct (write _ w1) as [[e|[]] w2]; cbn [snd ret] in *; congruence.
Qed.

Lemma checkout_effect (config : Config) (user : User.t) (w : World) :
  let w' := snd (checkout config user w) in
  cart_effect (Checkout user) w w' /\ user_effect config (Checkout user) w w'.
Proof.
  cbv zeta.
  assert (Hp : products (snd (checkout config user w)) = products w)
    by apply checkout_keeps_catalog.
  destruct (checkout_cases config user w)
    as [(e & _ & _ & ->)|(items & Hready & Hcases)].
  { split; [apply unchanged_effect; reflexivity | left; reflexivity]. }
  assert (Hrew : rewritten (products w) (carts w !! User.email user) (Checkout user) []).
  { destruct Hready as (Hcart & Hne & _).
    apply (rewritten_emptied _ _ user items); assumption. }
  destruct Hcases as [(_ & its & Hcart & Hc & Hu)|[(_ & [Hc Hu] & _)|(_ & [Hc Hu] & _)]].
  - split; [split; [assumption | right; eauto]|].
    right. exists user, items. pose proof Hready as (Hcart' & _).
    assert (its = items) by congruence; subst its.
    split; [reflexivity|]. split; assumption.
  - split; [split; [assumption | left; assumption] | left; assumption].
  - split; [split; [assumption | right; eauto] | left; assumption].
Qed.

Lemma perform_effect (config : Config) (c : Call) (w : World) :
  cart_effect c w (perform config c w) /\ user_effect config c w (perform config c w).
Proof.
  destruct c as [user pid q|user pid q|user pid|user]; cbn [perform].
  - destruct (addProductToCart_effect user pid q w) as [Hc Hu].
    split; [exact Hc | left; exact Hu].
  - destruct (updateProductInCart_effect user pid q w) as [Hc Hu].
    split; [exact Hc | left; exact Hu].
  - destruct (deleteProductFromCart_effect user pid w) as [Hc Hu].
    split; [exact Hc | left; exact Hu].
  - apply checkout_effect.
Qed.

(** X18: a call writes for its caller only.  Whatever the call, the
    database and the driver are: the catalog is unchanged, the cart of every
    other email is unchanged, the record of every other user is unchanged,
    and a call other than checkout changes no user record at all. *)
Theorem call_frame (config : Config) (c : Call) (w : World) :
  let w' := perform config c w in
  products w' = products w
  /\ (forall email, email <> User.email (caller c) ->
                    carts w' !! email = carts w !! email)
  /\ (forall id, id <> User._id (caller c) -> users w' !! id = users w !! id)
  /\ match c with
     | Checkout _ => True
     | _ => users w' = users w
     end.
Proof.
  cbv zeta.
  destruct (perform_effect config c w) as [[Hp Hc] Hu].
  split; [exact Hp|]. split; [|split].
  - intros email Hne. destruct Hc as [->|(items' & _ & ->)]; [reflexivity|].
    apply lookup_insert_ne. congruence.
  - intros id Hne. destruct Hu as [->|(user & items & -> & _ & ->)]; [reflexivity|].
    apply lookup_insert_ne. cbn [caller] in Hne. congruence.
  - destruct Hu as [Hu|(user & items & -> & _)]; [|exact I].
    destruct c; auto.
Qed.

(** X19: carts are created by addProductToCart only and are never deleted.
    A cart that is stored before a call is stored after it; a cart that is
    stored after a call and was not before is the cart of the caller of an
    addProductToCart for a product of the catalog. *)
Theorem carts_created_by_add (config : Config) (c : Call) (w : World) (email : string) :
  let w' := perform config c w in
  (is_Some (carts w !! email) -> is_Some (carts w' !! email))
  /\ (carts w !! email = None -> is_Some (carts w' !! email) ->
      exists user productId quantity,
        c = Add user productId quantity
        /\ User.email user = email
        /\ in_catalog productId w).
Proof.
  cbv zeta.
  destruct (perform_effect config c w) as [[_ Hc] _].
  destruct Hc as [->|(items' & Hrew & ->)].
  { split; [auto|]. intros Hnone [x Hx]. congruence. }
  split.
  - intros Hsome. destruct (decide (User.email (caller c) = email)) as [->|Hne].
    + rewrite lookup_insert_eq. eauto.
    + rewrite lookup_insert_ne by assumption. assumption.
  - intros Hnone Hsome.
    destruct (decide (User.email (caller c) = email)) as [Heq|Hne].
    2: { rewrite lookup_insert_ne in Hsome by assumption.
         destruct Hsome as [x Hx]. congruence. }
    rewrite Heq, Hnone in Hrew.
    inversion Hrew as [user pid q prod Hfind _|user pid q prod Hfind _| | | |]; subst;
      try discriminate.
    + exists user, pid, q. cbn [caller] in *. split; [reflexivity|]. split; [reflexivity|].
      apply find_in_catalog. eauto.
    + exists user, pid, q. cbn [caller] in *. split; [reflexivity|]. split; [reflexivity|].
      apply find_in_catalog. eauto.
Qed.

(** ** Invariants of the carts *)

Lemma every_cart_step (P : list CartItem -> Prop) (c : Call) (w w' : World) :
  cart_effect c w w' ->
  every_cart P w ->
  (forall items',
      rewritten (products w) (carts w !! User.email (caller c)) c items' -> P items') ->
  every_cart P w'.
Proof.
  intros [_ [Hc|(items' & Hrew & Hc)]] Hall Hnew email items; rewrite Hc.
  - apply Hall.
  - destruct (decide (User.email (caller c) = email)) as [->|Hne].
    + rewrite lookup_insert_eq. intros [= <-]. apply Hnew. assumption.
    + rewrite lookup_insert_ne by assumption. apply Hall.
Qed.

Lemma product_ids_in_cart (productId : string) (items : list CartItem) :
  productId ∈ product_ids items <-> in_cart productId items.
Proof.
  unfold in_cart, product_ids. induction items as [|i items IH]; simpl.
  - split; [intros H; inversion H | intros H; inversion H].
  - rewrite elem_of_cons, IH. split.
    + intros [->|H]; [left; apply same_product_true; reflexivity | right; assumption].
    + intros H. inversion H as [? ? Hi|? ? Hrest]; subst.
      * left. symmetry. apply same_product_true. assumption.
      * right. assumption.
Qed.

Lemma product_ids_app (l1 l2 : list CartItem) :
  product_ids (l1 ++ l2) = (product_ids l1 ++ product_ids l2)%list.
Proof. apply map_app. Qed.

Lemma product_ids_without (productId : string) (items : list CartItem) :
  sublist (product_ids (without productId items)) (product_ids items).
Proof.
  unfold without. induction items as [|i items IH]; simpl; [constructor|].
  destruct (negb (same_product productId i)); simpl; constructor; assumption.
Qed.

Lemma rewritten_one_item (ps : list Product.t) (old : option (list CartItem))
    (c : Call) (items' : list CartItem) :
  (forall items, old = Some items -> one_item_per_product items) ->
  rewritten ps old c items' ->
  one_item_per_product items'.
Proof.
  unfold one_item_per_product. intros Hold Hrew.
  destruct Hrew as [user pid q prod Hfind Hnone
                   |user pid q prod Hfind Hnot
                   |user pid q items pre item post Hsome Hq Hfirst
                   |user pid q items Hsome Hq Hin
                   |user pid items Hsome
                   |user items Hsome Hne].
  - apply NoDup_nil_2.
  - assert (Hid : Product._id prod = pid)
      by (apply find_some in Hfind as [_ H]; apply String.eqb_eq in H; exact H).
    assert (Hdup : NoDup (product_ids (default [] old))).
    { destruct old as [items|]; simpl; [apply Hold; reflexivity | apply NoDup_nil_2]. }
    rewrite product_ids_app. apply NoDup_app. split; [exact Hdup|]. split.
    + intros x Hx Hx'. simpl in Hx'. apply list_elem_of_singleton in Hx'. subst x.
      rewrite Hid in Hx. apply product_ids_in_cart in Hx. contradiction.
    + simpl. apply NoDup_singleton.
  - destruct Hfirst as (-> & _ & _). specialize (Hold _ Hsome).
    rewrite product_ids_app in Hold |- *. exact Hold.
  - eapply sublist_NoDup; [apply Hold; exact Hsome | apply product_ids_without].
  - eapply sublist_NoDup; [apply Hold; exact Hsome | apply product_ids_without].
  - apply NoDup_nil_2.
Qed.

Lemma snapshots_filter (ps : list Product.t) (p : CartItem -> bool)
    (items : list CartItem) :
  snapshots_of ps items -> snapshots_of ps (List.filter p items).
Proof.
  unfold snapshots_of. induction 1 as [|i items Hi _ IH]; simpl; [constructor|].
  destruct (p i); [constructor|]; assumption.
Qed.

Lemma rewritten_snapshots (ps : list Product.t) (old : option (list CartItem))
    (c : Call) (items' : list CartItem) :
  (forall items, old = Some items -> snapshots_of ps items) ->
  rewritten ps old c items' ->
  snapshots_of ps items'.
Proof.
  unfold snapshots_of at 2. intros Hold Hrew.
  destruct Hrew as [user pid q prod Hfind Hnone
                   |user pid q prod Hfind Hnot
                   |user pid q items pre item post Hsome Hq Hfirst
                   |user pid q items Hsome Hq Hin
                   |user pid items Hsome
                   |user items Hsome Hne].
  - constructor.
  - apply Forall_app. split.
    + destruct old as [items|]; simpl; [apply Hold; reflexivity | constructor].
    + constructor; [|constructor]. apply find_some in Hfind as [H _]. exact H.
  - destruct Hfirst as (-> & _ & _). specialize (Hold _ Hsome).
    apply Forall_app in Hold as [Hpre Hrest].
    inversion Hrest as [|? ? Hitem Hpost]; subst.
    apply Forall_app. split; [exact Hpre|]. constructor; assumption.
  - apply snapshots_filter, Hold, Hsome.
  - apply snapshots_filter, Hold, Hsome.
  - constructor.
Qed.

Lemma reachable_snapshots (config : Config) (w : World) :
  reachable config any_call w -> every_cart (snapshots_of (products w)) w.
Proof.
  induction 1 as [ps us fs|w c fs _ IH _].
  - intros email items. cbn [carts]. rewrite lookup_empty. discriminate.
  - destruct (perform_effect config c (set_faults fs w)) as [Heff _].
    pose proof Heff as [Hp _]. rewrite Hp. cbn [products set_faults].
    apply (every_cart_step _ c (set_faults fs w)); [exact Heff | exact IH |].
    intros items'. apply rewritten_snapshots.
    intros items Hsome. apply (IH _ _ Hsome).
Qed.

(** X20: no cart ever holds two line items of one product.  In every state
    the service reaches from a database without carts, by any calls with
    any arguments and any behaviour of the driver, the product identifiers
    of the line items of a cart are pairwise different. *)
Theorem one_item_per_product_invariant (config : Config) (w : World) :
  reachable config any_call w -> every_cart one_item_per_product w.
Proof.
  induction 1 as [ps us fs|w c fs _ IH _].
  - intros email items. cbn [carts]. rewrite lookup_empty. discriminate.
  - destruct (perform_effect config c (set_faults fs w)) as [Heff _].
    apply (every_cart_step _ c (set_faults fs w)); [exact Heff | exact IH |].
    intros items'. apply rewritten_one_item.
    intros items Hsome. apply (IH _ _ Hsome).
Qed.

Lemma one_item_per_product_invariant_witness :
  every_cart one_item_per_product
    (perform qkart_config (Add ann "p1" 1)
       (set_faults []
          (perform qkart_config (Add ann "p1" 3) (set_faults [] new_shop)))).
Proof.
  apply (one_item_per_product_invariant qkart_config).
  apply reachable_call; [|exact I].
  apply reachable_call; [apply reachable_init | exact I].
Defined.

(** X21: a cart holds catalog products only.  In every state the service
    reaches from a database without carts (the catalog being the one the
    database started with), every line item's product is a record of the
    catalog, with its identifier and its cost. *)
Theorem line_items_from_catalog (config : Config) (w : World) :
  reachable config any_call w -> every_cart (snapshots_of (products w)) w.
Proof. apply reachable_snapshots. Qed.

Lemma line_items_from_catalog_witness :
  every_cart
    (snapshots_of
       (products (perform qkart_config (Add ann "p2" 3) (set_faults [] new_shop))))
    (perform qkart_config (Add ann "p2" 3) (set_faults [] new_shop)).
Proof.
  apply (line_items_from_catalog qkart_config).
  apply reachable_call; [apply reachable_init | exact I].
Defined.

(** X22: in the states the service reaches by itself the update to a
    quantity of 0 or less is the delete.  For every state reached from a
    database without carts, with the catalog it started with, and every
    product that is a line item of the user's cart, updateProductInCart with
    a quantity of 0 or less returns and stores what deleteProductFromCart
    does. *)
Theorem reachable_update_nonpositive_is_delete (config : Config) (w : World)
    (user : User.t) (productId : string) (quantity : Z) (items : list CartItem) :
  reachable config any_call w ->
  carts w !! User.email user = Some items ->
  in_cart productId items ->
  quantity <= 0 ->
  updateProductInCart user productId quantity w = deleteProductFromCart user productId w.
Proof.
  intros Hreach Hcart Hin Hq.
  apply (update_nonpositive_delegates _ _ _ _ _ Hcart Hin); [|exact Hq].
  pose proof (reachable_snapshots config w Hreach _ _ Hcart) as Hsnap.
  apply List.Exists_exists in Hin as (item & Hitem & Hsame).
  exists (product item). split.
  - unfold snapshots_of in Hsnap. rewrite List.Forall_forall in Hsnap. auto.
  - apply same_product_true. exact Hsame.
Qed.

Lemma reachable_update_nonpositive_is_delete_witness :
  updateProductInCart ann "p2" 0
    (perform qkart_config (Add ann "p2" 3) (set_faults [] new_shop))
  = deleteProductFromCart ann "p2"
      (perform qkart_config (Add ann "p2" 3) (set_faults [] new_shop)).
Proof.
  apply (reachable_update_nonpositive_is_delete qkart_config
           (perform qkart_config (Add ann "p2" 3) (set_faults [] new_shop))
           ann "p2" 0 [mkItem mug 3]).
  - apply reachable_call; [apply reachable_init | exact I].
  - vm_compute. reflexivity.
  - left. reflexivity.
  - lia.
Defined.

(** ** Rejected writes *)



(** X24: the first addProductToCart of a user makes two writes, the
    creation of an empty cart and the save of the cart with its line item,
    and their outcomes decide.  For a catalog product and a user without a
    cart: with the creation rejected the call fails and nothing is stored;
    with the creation accepted and the save rejected the call fails and an
    empty cart stays in the store; with both accepted the cart with the one
    line item is returned and stored. *)
Theorem addProductToCart_first_outcomes (user : User.t) (productId : string)
    (quantity : Z) (w : World) (prod : Product.t) :
  find (fun p => String.eqb (Product._id p) productId) (products w) = Some prod ->
  carts w !! User.email user = None ->
  let r := fst (addProductToCart user productId quantity w) in
  let w' := snd (addProductToCart user productId quantity w) in
  (rejected 0 w -> r = inl WriteError /\ carts w' = carts w)
  /\ (accepted 0 w -> rejected 1 w ->
      r = inl WriteError /\ carts w' = <[User.email user := []]> (carts w))
  /\ (accepted 0 w -> accepted 1 w ->
      r = inr (Cart.mk (User.email user) [mkItem prod quantity])
      /\ carts w' = <[User.email user := [mkItem prod quantity]]> (carts w)).
Proof.
  intros Hfind Hcart. cbv zeta.
  rewrite (addProductToCart_new_cart _ _ _ _ _ Hfind Hcart).
  unfold rejected, accepted.
  destruct (faults w) as [|[] [|[] fs]] eqn:Hf;
    run; rewrite ?Hf; cbn; rewrite ?Hf; cbn;
    repeat split; intros; try discriminate; try reflexivity;
    try apply insert_insert_eq.
Qed.

Lemma addProductToCart_first_outcomes_witness :
  fst (addProductToCart ann "p1" 2 (set_faults [false; true] new_shop)) = inl WriteError
  /\ carts (snd (addProductToCart ann "p1" 2 (set_faults [false; true] new_shop)))
     = <[User.email ann := []]> (carts (set_faults [false; true] new_shop)).
Proof.
  refine (proj1 (proj2 (addProductToCart_first_outcomes ann "p1" 2
                          (set_faults [false; true] new_shop) tea _ _)) _ _);
    reflexivity.
Defined.

(** ** The user schema *)

(** X25: which message the password validator throws.  A plaintext shorter
    than 8 characters gets [Password must contain at least 8 characters],
    also when it lacks a letter or a digit; a plaintext of 8 characters or
    more that lacks a digit or lacks a letter gets [Password must contain at
    least one letter and one number]. *)
Theorem password_validate_messages (value : string) :
  (password_validate value = inl "Password must contain at least 8 characters"
   <-> (String.length value < 8)%nat)
  /\ (password_validate value
      = inl "Password must contain at least one letter and one number"
      <-> (8 <= String.length value)%nat
          /\ (~ contains is_digit value \/ ~ contains is_letter value)).
Proof.
  unfold password_validate, String_match. rewrite <- !found_class.
  destruct (Nat.ltb_spec (String.length value) 8) as [Hlt|Hge].
  - split; split; try (intros; reflexivity || assumption).
    + discriminate.
    + intros [H _]. lia.
  - destruct (found (Class is_digit) value), (found (Class is_letter) value);
      cbn [negb orb]; split; split; try discriminate; try lia;
      try (intros; reflexivity); try (intros _; split; [assumption|]);
      try (intros [_ [H|H]]; exfalso; apply H; reflexivity);
      try (left; discriminate); try (right; discriminate).
Qed.

(** X26: the save hook touches the password only, and only a modified one.
    When [isModified('password')] is false the user is passed on as it is
    and bcrypt is not consulted; when it is true the password becomes the
    hash bcrypt computes from the plaintext and the generated salt, every
    other field stays, and an error of [genSalt] or of [hash] is passed on
    instead. *)
Theorem pre_save_outcomes (bcrypt_genSalt : Z -> Error + string)
    (bcrypt_hash : string -> string -> Error + string)
    (isModified_password : bool) (user : User.t) :
  match pre_save bcrypt_genSalt bcrypt_hash isModified_password user with
  | inr user' =>
    User.set_password (User.password user) user' = user
    /\ (if isModified_password
        then exists salt,
               bcrypt_genSalt SALT_WORK_FACTOR = inr salt
               /\ bcrypt_hash (User.password user) salt = inr (User.password user')
        else user' = user)
  | inl err =>
    isModified_password = true
    /\ (bcrypt_genSalt SALT_WORK_FACTOR = inl err
        \/ exists salt,
             bcrypt_genSalt SALT_WORK_FACTOR = inr salt
             /\ bcrypt_hash (User.password user) salt = inl err)
  end.
Proof.
  unfold pre_save. destruct isModified_password; cbn [negb].
  - destruct (bcrypt_genSalt SALT_WORK_FACTOR) as [err|salt]; [auto|].
    destruct (bcrypt_hash (User.password user) salt) as [err|hash] eqn:Hhash.
    + split; [reflexivity|]. right. eauto.
    + split; [destruct user; reflexivity|]. exists salt. auto.
  - split; [destruct user; reflexivity | reflexivity].
Qed.



(** X28: the pattern of the email validator matches no string without an
    at sign: a string the pattern accepts has a character [@]. *)
Theorem email_re_needs_at (s : string) :
  matches email_re s = true -> contains (Ascii.eqb "@") s.
Proof.
  rewrite matches_lang. unfold email_re. intros H.
  inversion H as [| |? ? s1 s23 _ H23| | | |]; subst.
  inversion H23 as [| |? ? s2 s3 H2 _| | | |]; subst.
  unfold chr in H2. inversion H2; subst.
  apply contains_split. exists s1, c, s3.
  rewrite append_cons, append_nil_l. auto.
Qed.

Lemma email_re_needs_at_witness : contains (Ascii.eqb "@") "ann@example.com".
Proof.
  apply (email_re_needs_at "ann@example.com"). vm_compute. reflexivity.
Defined.

(** ** Quantities *)

Lemma reachable_any (config : Config) (allowed : Call -> Prop) (w : World) :
  reachable config allowed w -> reachable config any_call w.
Proof.
  induction 1 as [ps us fs|w c fs _ IH _]; [apply reachable_init|].
  apply reachable_call; [exact IH | exact I].
Qed.

Lemma deleteProductFromCart_first_accepted (user : User.t) (productId : string)
    (w : World) (items : list CartItem) :
  carts w !! User.email user = Some items ->
  accepted 0 w ->
  fst (deleteProductFromCart user productId w)
  = inr (Cart.mk (User.email user) (without productId items))
  /\ carts (snd (deleteProductFromCart user productId w))
     = <[User.email user := without productId items]> (carts w).
Proof.
  intros Hcart Hacc. unfold accepted in Hacc.
  rewrite deleteProductFromCart_run, Hcart.
  destruct (faults w) as [|[] fs] eqn:Hf; [| discriminate |];
    run; rewrite Hf; cbn; auto.
Qed.

Lemma reachable_positive (config : Config) (w : World) :
  reachable config adds_positive w -> cart_invariant w.
Proof.
  induction 1 as [ps us fs|w c fs _ IH Hc].
  - intros email items. cbn [carts]. rewrite lookup_empty. discriminate.
  - apply perform_keeps; [assumption|].
    apply (cart_invariant_carts w); [reflexivity | assumption].
Qed.

(** C4 (as amended): in every state the service reaches from a database
    without carts, by calls in which addProductToCart is given a positive
    quantity, every stored line item has a positive quantity.  In such a
    state an update of a line item to a quantity of 0 or less, its write
    accepted, stores no such quantity: it returns and stores the cart
    without the line items of the product, and the invariant still holds. *)
Theorem quantities_stay_positive (config : Config) (w : World) :
  reachable config adds_positive w ->
  cart_invariant w
  /\ forall user productId quantity items,
       carts w !! User.email user = Some items ->
       in_cart productId items ->
       quantity <= 0 ->
       accepted 0 w ->
       let r := updateProductInCart user productId quantity w in
       fst r = inr (Cart.mk (User.email user) (without productId items))
       /\ carts (snd r) !! User.email user = Some (without productId items)
       /\ ~ in_cart productId (without productId items)
       /\ cart_invariant (snd r).
Proof.
  intros Hreach.
  pose proof (reachable_positive config w Hreach) as Hinv.
  split; [exact Hinv|].
  intros user productId quantity items Hcart Hin Hq Hacc. cbv zeta.
  assert (Hcat : in_catalog productId w).
  { pose proof (reachable_snapshots config w (reachable_any _ _ _ Hreach) _ _ Hcart)
      as Hsnap.
    pose proof Hin as Hex.
    apply List.Exists_exists in Hex as (item & Hitem & Hsame).
    exists (product item). split.
    - unfold snapshots_of in Hsnap. rewrite List.Forall_forall in Hsnap. auto.
    - apply same_product_true. exact Hsame. }
  rewrite (update_nonpositive_delegates _ _ _ _ _ Hcart Hin Hcat Hq).
  destruct (deleteProductFromCart_first_accepted user productId w items Hcart Hacc)
    as [Hr Hc].
  split; [exact Hr|]. split; [rewrite Hc; apply lookup_insert_eq|].
  split; [apply without_not_in_cart|].
  apply keeps_deleteProductFromCart. exact Hinv.
Qed.

Lemma quantities_stay_positive_witness :
  let w := perform qkart_config (Add ann "p1" 3) (set_faults [] new_shop) in
  let r := updateProductInCart ann "p1" 0 w in
  fst r = inr (Cart.mk (User.email ann) (without "p1" [mkItem tea 3]))
  /\ carts (snd r) !! User.email ann = Some (without "p1" [mkItem tea 3])
  /\ ~ in_cart "p1" (without "p1" [mkItem tea 3])
  /\ cart_invariant (snd r).
Proof.
  cbv zeta.
  refine (proj2 (quantities_stay_positive qkart_config
                   (perform qkart_config (Add ann "p1" 3) (set_faults [] new_shop)) _)
                ann "p1" 0 [mkItem tea 3] _ _ _ _).
  - apply reachable_call; [apply reachable_init | cbn; lia].
  - vm_compute. reflexivity.
  - left. reflexivity.
  - lia.
  - vm_compute. reflexivity.
Defined.

(** C4 (as stated) fails: addProductToCart stores the quantity it is given,
    and a quantity of 0 in a first call is stored as it is. *)
Lemma zero_quantity_reachable :
  let w := perform qkart_config (Add ann "p1" 0) (set_faults [] new_shop) in
  reachable qkart_config any_call w
  /\ carts w !! "ann@example.com" = Some [mkItem tea 0]
  /\ ~ cart_invariant w.
Proof.
  cbv zeta.
  assert (Hcart : carts (perform qkart_config (Add ann "p1" 0) (set_faults [] new_shop))
                  !! "ann@example.com" = Some [mkItem tea 0])
    by (vm_compute; reflexivity).
  split; [|split; [exact Hcart|]].
  - apply reachable_call; [apply reachable_init | exact I].
  - intros Hinv. specialize (Hinv _ _ Hcart).
    inversion Hinv as [|? ? Hq _]; subst. cbn in Hq. lia.
Qed.
